(** * JochiesLeague backend: check-in verification and leaderboard ranking

    A shallow embedding of [backend/app.py] and [backend/models.py], and
    of the node interpolation of [backend/generate_morph.py].

    Python floats are modelled by the real numbers of the Standard Library:
    the trigonometric functions of [math] have no floating-point counterpart
    here, so rounding is not part of the model.  The rows, the queries, the
    unique constraint and the request handlers are modelled as the source
    has them; a handler is a program over the database operations it
    issues, which is run either alone or interleaved with another one. *)

From Stdlib Require Import Reals Lra Lia ZArith List String Bool.
From Stdlib Require Import Sorting.Sorted Sorting.Permutation.
Import ListNotations.

Set Implicit Arguments.

(* ================================================================== *)
(** * Exceptions *)
(* ================================================================== *)

(** The exceptions the modelled code can raise.  None of them is caught by
    a handler: Flask answers such a request with status 500. *)
Inductive Exn : Type :=
| ValueError      (* math domain error, from [math.sqrt] *)
| AttributeError  (* [checkin.user.name] when [checkin.user] is [None] *)
| IntegrityError. (* [unique_user_date] violated at [db.session.commit()] *)

(* ================================================================== *)
(** * Geofence evaluator *)
(* ================================================================== *)

Section Geofence.

Local Open Scope R_scope.

(** [math.radians(x)]. *)
Definition radians (x : R) : R := x * (PI / 180).

(** [math.sqrt(x)]: raises [ValueError] on a negative argument. *)
Definition math_sqrt (x : R) : Exn + R :=
  if Rlt_dec x 0 then inl ValueError else inr (sqrt x).

(** [math.atan2(y, x)]: the angle of the point [(x, y)], in [(-pi, pi]]. *)
Definition atan2 (y x : R) : R :=
  if Rlt_dec 0 x then atan (y / x)
  else if Rlt_dec x 0 then
         if Rle_dec 0 y then atan (y / x) + PI else atan (y / x) - PI
  else if Rlt_dec 0 y then PI / 2
  else if Rlt_dec y 0 then - (PI / 2)
  else 0.

(** The quantity [a] of [haversine_distance]. *)
Definition haversine_a (lat1 lon1 lat2 lon2 : R) : R :=
  let phi1 := radians lat1 in
  let phi2 := radians lat2 in
  let delta_phi := radians (lat2 - lat1) in
  let delta_lambda := radians (lon2 - lon1) in
  sin (delta_phi / 2) ^ 2 +
  cos phi1 * cos phi2 * sin (delta_lambda / 2) ^ 2.

(** [R = 6371000], Earth's radius in meters. *)
Definition EARTH_RADIUS : R := 6371000.

(** [haversine_distance(lat1, lon1, lat2, lon2)], in meters, in exact
    arithmetic: the rounding of the float operations, which can take [a]
    out of [0, 1] by an ulp, is not modelled. *)
Definition haversine_distance (lat1 lon1 lat2 lon2 : R) : Exn + R :=
  let a := haversine_a lat1 lon1 lat2 lon2 in
  match math_sqrt a with
  | inl e => inl e
  | inr sa =>
      match math_sqrt (1 - a) with
      | inl e => inl e
      | inr s1a =>
          let c := 2 * atan2 sa s1a in
          inr (EARTH_RADIUS * c)
      end
  end.

(** [round(x)] to the nearest integer, ties to the even one. *)
Definition round_half_even (x : R) : Z :=
  let n := Int_part x in
  let f := x - IZR n in
  if Rlt_dec f (1 / 2) then n
  else if Rlt_dec (1 / 2) f then (n + 1)%Z
  else if Z.even n then n else (n + 1)%Z.

(** [round(x, 1)]. *)
Definition round1 (x : R) : R := IZR (round_half_even (x * 10)) / 10.

Definition SCIENCE_PARK_LAT : R := 523547 / 10000.
Definition SCIENCE_PARK_LNG : R := 49543 / 10000.
Definition ALLOWED_RADIUS_METERS : Z := 10000.

End Geofence.

(* ================================================================== *)
(** * Data model ([models.py]) *)
(* ================================================================== *)

(** A [db.Date] is its proleptic ordinal, a [db.DateTime] a number of
    microseconds: both are totally ordered, which is all the code uses. *)
Definition date : Type := Z.
Definition datetime : Type := Z.

Module User.
Record t : Type := Build {
  id : string;               (* primary key, the Google id *)
  email : string;
  name : string;
  picture : option string;   (* nullable *)
  created_at : datetime
}.
End User.

Module CheckIn.
Record t : Type := Build {
  id : Z;                    (* primary key *)
  user_id : string;          (* foreign key to users.id *)
  check_in_date : date;
  check_in_time : datetime;
  latitude : R;
  longitude : R;
  photo_data : option string (* nullable *)
}.
End CheckIn.

(** The two tables the check-in routes use, rows in storage order. *)
Record Db : Type := {
  users : list User.t;
  checkins : list CheckIn.t
}.

(* ================================================================== *)
(** * Storage layer *)
(* ================================================================== *)

(** Stable insertion sort: what [ORDER BY] is taken to be. *)
Section Sort.
Variable A : Type.
Variable le : A -> A -> bool.

Fixpoint insert_by (x : A) (l : list A) : list A :=
  match l with
  | [] => [x]
  | y :: l' => if le x y then x :: y :: l' else y :: insert_by x l'
  end.

Fixpoint sort_by (l : list A) : list A :=
  match l with
  | [] => []
  | x :: l' => insert_by x (sort_by l')
  end.
End Sort.

(** [filter_by(user_id=uid, check_in_date=d)]. *)
Definition by_user_date (uid : string) (d : date) (r : CheckIn.t) : bool :=
  String.eqb (CheckIn.user_id r) uid && Z.eqb (CheckIn.check_in_date r) d.

(** [filter_by(check_in_date=d)]. *)
Definition by_date (d : date) (r : CheckIn.t) : bool :=
  Z.eqb (CheckIn.check_in_date r) d.

(** [CheckIn.query.filter_by(user_id=uid, check_in_date=d).first()]. *)
Definition first_by_user_date (db : Db) (uid : string) (d : date)
  : option CheckIn.t :=
  find (by_user_date uid d) (checkins db).

Definition time_asc (r1 r2 : CheckIn.t) : bool :=
  Z.leb (CheckIn.check_in_time r1) (CheckIn.check_in_time r2).

(** [CheckIn.query.filter_by(check_in_date=d)
      .order_by(CheckIn.check_in_time.asc()).all()]. *)
Definition all_by_date (db : Db) (d : date) : list CheckIn.t :=
  sort_by time_asc (filter (by_date d) (checkins db)).

Definition date_desc (d1 d2 : date) : bool := Z.leb d2 d1.

(** [db.session.query(CheckIn.check_in_date).distinct()
      .order_by(CheckIn.check_in_date.desc()).limit(n).all()]. *)
Definition distinct_dates_desc (db : Db) (n : nat) : list date :=
  firstn n
    (sort_by date_desc (nodup Z.eq_dec (map CheckIn.check_in_date (checkins db)))).

(** [User.query.get(uid)], also the lazy load behind [checkin.user]. *)
Definition user_get (db : Db) (uid : string) : option User.t :=
  find (fun u => String.eqb (User.id u) uid) (users db).

(** The primary key that the database gives the next row: one more than
    the largest key of the table, 1 for an empty table (the rule of SQLite,
    the default database; the sequence of PostgreSQL gives such a key too,
    or a larger one after a refused insert). *)
Definition next_id (db : Db) : Z :=
  match map CheckIn.id (checkins db) with
  | [] => 1
  | id :: ids => fold_right Z.max id ids + 1
  end.

(** [db.session.add(row); db.session.commit()]: the row gets its primary
    key and is appended, unless [unique_user_date] rejects it. *)
Definition add_commit (db : Db) (new : Z -> CheckIn.t)
  : Exn + (Db * CheckIn.t) :=
  let row := new (next_id db) in
  if existsb (by_user_date (CheckIn.user_id row) (CheckIn.check_in_date row))
             (checkins db)
  then inl IntegrityError
  else inr ({| users := users db; checkins := (checkins db ++ [row])%list |}, row).

(* ================================================================== *)
(** * Handlers as programs over the storage layer *)
(* ================================================================== *)

(** A handler body: it returns, raises, or issues one database operation
    and goes on with the answer. *)
Inductive Prog (A : Type) : Type :=
| Ret (a : A)
| Raise (e : Exn)
| FirstByUserDate (uid : string) (d : date) (k : option CheckIn.t -> Prog A)
| AllByDate (d : date) (k : list CheckIn.t -> Prog A)
| DistinctDatesDesc (n : nat) (k : list date -> Prog A)
| UserGet (uid : string) (k : option User.t -> Prog A)
| AddCommit (new : Z -> CheckIn.t) (k : CheckIn.t -> Prog A).

Arguments Raise {A} e.

Fixpoint bind (A B : Type) (p : Prog A) (f : A -> Prog B) : Prog B :=
  match p with
  | Ret a => f a
  | Raise e => Raise e
  | FirstByUserDate uid d k => FirstByUserDate uid d (fun x => bind (k x) f)
  | AllByDate d k => AllByDate d (fun x => bind (k x) f)
  | DistinctDatesDesc n k => DistinctDatesDesc n (fun x => bind (k x) f)
  | UserGet uid k => UserGet uid (fun x => bind (k x) f)
  | AddCommit new k => AddCommit new (fun x => bind (k x) f)
  end.

Notation "x <- p ;; q" := (bind p (fun x => q))
  (at level 61, p at next level, right associativity).

(** One database operation of [p], executed atomically. *)
Definition exec_op (A : Type) (db : Db) (p : Prog A) : Db * Prog A :=
  match p with
  | Ret _ | Raise _ => (db, p)
  | FirstByUserDate uid d k => (db, k (first_by_user_date db uid d))
  | AllByDate d k => (db, k (all_by_date db d))
  | DistinctDatesDesc n k => (db, k (distinct_dates_desc db n))
  | UserGet uid k => (db, k (user_get db uid))
  | AddCommit new k =>
      match add_commit db new with
      | inl e => (db, Raise e)
      | inr (db', row) => (db', k row)
      end
  end.

(** A request served alone, from its first operation to its outcome. *)
Fixpoint run (A : Type) (p : Prog A) (db : Db) : Db * (Exn + A) :=
  match p with
  | Ret a => (db, inr a)
  | Raise e => (db, inl e)
  | FirstByUserDate uid d k => run (k (first_by_user_date db uid d)) db
  | AllByDate d k => run (k (all_by_date db d)) db
  | DistinctDatesDesc n k => run (k (distinct_dates_desc db n)) db
  | UserGet uid k => run (k (user_get db uid)) db
  | AddCommit new k =>
      match add_commit db new with
      | inl e => (db, inl e)
      | inr (db', row) => run (k row) db'
      end
  end.

(** Two requests served concurrently: a schedule says whose operation
    comes next. *)
Inductive Worker : Type := W1 | W2.

Fixpoint interleave (A : Type) (sched : list Worker) (db : Db)
  (p1 p2 : Prog A) : Db * (Prog A * Prog A) :=
  match sched with
  | [] => (db, (p1, p2))
  | W1 :: s => let (db', p1') := exec_op db p1 in interleave s db' p1' p2
  | W2 :: s => let (db', p2') := exec_op db p2 in interleave s db' p1 p2'
  end.

(** The outcome of a request that has no operation left. *)
Definition outcome (A : Type) (p : Prog A) : option (Exn + A) :=
  match p with
  | Ret a => Some (inr a)
  | Raise e => Some (inl e)
  | _ => None
  end.

(* ================================================================== *)
(** * Requests and responses *)
(* ================================================================== *)

(** The JSON object of a [POST]: a key that is absent is [None].  The
    coordinates, when present, are numbers; the photo, when present, is a
    string. *)
Module Json.
Record t : Type := Build {
  latitude : option R;
  longitude : option R;
  photo : option string
}.
End Json.

(** [data.get('photo')] as a condition: absent and empty are both false. *)
Definition photo_given (data : Json.t) : bool :=
  match Json.photo data with
  | None => false
  | Some s => negb (String.eqb s EmptyString)
  end.

(** An entry of today's leaderboard. *)
Module Entry.
Record t : Type := Build {
  rank : nat;
  name : string;
  picture : option string;
  check_in_time : datetime;
  photo : option string
}.
End Entry.

(** An entry of a day of the history: no photo. *)
Module HEntry.
Record t : Type := Build {
  rank : nat;
  name : string;
  picture : option string;
  check_in_time : datetime
}.
End HEntry.

Module Day.
Record t : Type := Build {
  date : date;
  entries : list HEntry.t
}.
End Day.

(** The JSON answers of the routes, one constructor per shape. *)
Inductive Response : Type :=
| MissingCoordinates                              (* 400 *)
| PhotoRequired                                   (* 400 *)
| TooFar (distance : R) (allowed_radius : Z)      (* 400 *)
| AlreadyCheckedIn (check_in_time : datetime)     (* 400 *)
| LocationVerified (distance latitude longitude : R)
| CheckedIn (check_in_time : datetime) (distance : R)
| Status (checked_in : bool) (check_in_time : option datetime)
| Leaderboard (today : date) (leaderboard : list Entry.t)
| History (history : list Day.t).

(** The HTTP status of an outcome; an uncaught exception gives 500. *)
Definition status_code (o : Exn + Response) : Z :=
  match o with
  | inl _ => 500
  | inr MissingCoordinates | inr PhotoRequired
  | inr (TooFar _ _) | inr (AlreadyCheckedIn _) => 400
  | inr _ => 200
  end.

(* ================================================================== *)
(** * Check-in routes *)
(* ================================================================== *)

(** In each route [user] is [request.api_user], [data] is what
    [request.get_json()] returned ([None] for the body [null]; a request
    without a JSON body is refused before the route runs), [today] is
    [date.today()] and [now] is
    [datetime.utcnow()]. *)

(** [distance > ALLOWED_RADIUS_METERS]. *)
Definition too_far (distance : R) : {(distance > IZR ALLOWED_RADIUS_METERS)%R}
                                  + {~ (distance > IZR ALLOWED_RADIUS_METERS)%R} :=
  Rgt_dec distance (IZR ALLOWED_RADIUS_METERS).

(** [POST /api/verify-location]. *)
Definition verify_location (user : User.t) (data : option Json.t)
  (today : date) : Prog Response :=
  match data with
  | None => Ret MissingCoordinates
  | Some data =>
      match Json.latitude data, Json.longitude data with
      | Some lat, Some lng =>
          match haversine_distance lat lng SCIENCE_PARK_LAT SCIENCE_PARK_LNG with
          | inl e => Raise e
          | inr distance =>
              if too_far distance
              then Ret (TooFar (round1 distance) ALLOWED_RADIUS_METERS)
              else
                FirstByUserDate (User.id user) today (fun existing =>
                  match existing with
                  | Some existing =>
                      Ret (AlreadyCheckedIn (CheckIn.check_in_time existing))
                  | None => Ret (LocationVerified (round1 distance) lat lng)
                  end)
          end
      | _, _ => Ret MissingCoordinates
      end
  end.

(** [POST /api/checkin]. *)
Definition checkin (user : User.t) (data : option Json.t)
  (today : date) (now : datetime) : Prog Response :=
  match data with
  | None => Ret MissingCoordinates
  | Some data =>
      match Json.latitude data, Json.longitude data with
      | Some lat, Some lng =>
          if negb (photo_given data) then Ret PhotoRequired
          else
            let photo_data := Json.photo data in
            match haversine_distance lat lng SCIENCE_PARK_LAT SCIENCE_PARK_LNG with
            | inl e => Raise e
            | inr distance =>
                if too_far distance
                then Ret (TooFar (round1 distance) ALLOWED_RADIUS_METERS)
                else
                  FirstByUserDate (User.id user) today (fun existing =>
                    match existing with
                    | Some existing =>
                        Ret (AlreadyCheckedIn (CheckIn.check_in_time existing))
                    | None =>
                        AddCommit
                          (fun id =>
                             {| CheckIn.id := id;
                                CheckIn.user_id := User.id user;
                                CheckIn.check_in_date := today;
                                CheckIn.check_in_time := now;
                                CheckIn.latitude := lat;
                                CheckIn.longitude := lng;
                                CheckIn.photo_data := photo_data |})
                          (fun checkin =>
                             Ret (CheckedIn (CheckIn.check_in_time checkin)
                                            (round1 distance)))
                    end)
            end
      | _, _ => Ret MissingCoordinates
      end
  end.

(** [GET /api/status]. *)
Definition get_status (user : User.t) (today : date) : Prog Response :=
  FirstByUserDate (User.id user) today (fun checkin =>
    match checkin with
    | Some checkin => Ret (Status true (Some (CheckIn.check_in_time checkin)))
    | None => Ret (Status false None)
    end).

(* ================================================================== *)
(** * Leaderboard routes *)
(* ================================================================== *)

(** The loop over [enumerate(checkins)], from index [i] on; [checkin.user]
    loads the row of the user. *)
Fixpoint leaderboard_entries (i : nat) (checkins : list CheckIn.t)
  : Prog (list Entry.t) :=
  match checkins with
  | [] => Ret []
  | checkin :: rest =>
      UserGet (CheckIn.user_id checkin) (fun user =>
        match user with
        | None => Raise AttributeError
        | Some user =>
            leaderboard <- leaderboard_entries (S i) rest ;;
            Ret ({| Entry.rank := i + 1;
                    Entry.name := User.name user;
                    Entry.picture := User.picture user;
                    Entry.check_in_time := CheckIn.check_in_time checkin;
                    Entry.photo := CheckIn.photo_data checkin |} :: leaderboard)
        end)
  end.

(** [GET /api/leaderboard]. *)
Definition get_leaderboard (today : date) : Prog Response :=
  AllByDate today (fun checkins =>
    leaderboard <- leaderboard_entries 0 checkins ;;
    Ret (Leaderboard today leaderboard)).

(** The comprehension over [enumerate(checkins)] of a day of the history. *)
Fixpoint history_entries (i : nat) (checkins : list CheckIn.t)
  : Prog (list HEntry.t) :=
  match checkins with
  | [] => Ret []
  | c :: rest =>
      UserGet (CheckIn.user_id c) (fun user =>
        match user with
        | None => Raise AttributeError
        | Some user =>
            entries <- history_entries (S i) rest ;;
            Ret ({| HEntry.rank := i + 1;
                    HEntry.name := User.name user;
                    HEntry.picture := User.picture user;
                    HEntry.check_in_time := CheckIn.check_in_time c |} :: entries)
        end)
  end.

(** The loop over [dates_with_checkins]. *)
Fixpoint history_days (dates : list date) : Prog (list Day.t) :=
  match dates with
  | [] => Ret []
  | check_date :: rest =>
      AllByDate check_date (fun checkins =>
        entries <- history_entries 0 checkins ;;
        history <- history_days rest ;;
        Ret ({| Day.date := check_date; Day.entries := entries |} :: history))
  end.

(** [GET /api/history]. *)
Definition get_history : Prog Response :=
  DistinctDatesDesc 30 (fun dates_with_checkins =>
    history <- history_days dates_with_checkins ;;
    Ret (History history)).

(* ================================================================== *)
(** * Database URL *)
(* ================================================================== *)

(** [s[n:]]. *)
Fixpoint string_drop (n : nat) (s : string) : string :=
  match n, s with
  | O, _ => s
  | S n', EmptyString => EmptyString
  | S n', String _ s' => string_drop n' s'
  end.

(** [s.replace(old, new, 1)]: the first occurrence only. *)
Fixpoint replace_first (old new s : string) : string :=
  if String.prefix old s
  then String.append new (string_drop (String.length old) s)
  else match s with
       | EmptyString => EmptyString
       | String c s' => String c (replace_first old new s')
       end.

(** [database_url], from [os.environ.get('DATABASE_URL', ...)] to the
    value put in [SQLALCHEMY_DATABASE_URI]. *)
Definition database_url (DATABASE_URL : option string) : string :=
  let database_url :=
    match DATABASE_URL with
    | Some v => v
    | None => "sqlite:///jochiesleague.db"%string
    end in
  if String.prefix "postgres://" database_url
  then replace_first "postgres://" "postgresql://" database_url
  else database_url.

(* ================================================================== *)
(** * Authentication *)
(* ================================================================== *)

(** A Python dict with string keys, as the list of its items in insertion
    order; a key occurs once. *)
Section Dict.
Variable V : Type.

Definition dict : Type := list (string * V).

(** [d.get(k)]. *)
Definition dict_get (d : dict) (k : string) : option V :=
  match find (fun item => String.eqb (fst item) k) d with
  | Some item => Some (snd item)
  | None => None
  end.

(** [d[k] = v]. *)
Fixpoint dict_set (d : dict) (k : string) (v : V) : dict :=
  match d with
  | [] => [(k, v)]
  | item :: d' =>
      if String.eqb (fst item) k then (k, v) :: d'
      else item :: dict_set d' k v
  end.

(** [del d[k]], for a key that [d] holds. *)
Definition dict_del (d : dict) (k : string) : dict :=
  filter (fun item => negb (String.eqb (fst item) k)) d.

Definition dict_keys_once (d : dict) : Prop := NoDup (map fst d).
End Dict.

(** An item of [auth_tokens]. *)
Record TokenData : Type := {
  token_user_id : string;
  token_expires : datetime
}.

(** [timedelta(days=30)]. *)
Definition THIRTY_DAYS : Z := 30 * 86400 * 1000000.

(** [get_user_from_token()]: [authorization] is the header of the request,
    if it has one, and [utcnow] the time. *)
Definition get_user_from_token (auth_tokens : dict TokenData)
  (authorization : option string) (utcnow : datetime)
  : Prog (option User.t) :=
  let auth_header :=
    match authorization with
    | Some h => h
    | None => EmptyString
    end in
  if String.prefix "Bearer " auth_header then
    let token := string_drop 7 auth_header in
    match dict_get auth_tokens token with
    | Some token_data =>
        if Z.ltb utcnow (token_expires token_data)
        then UserGet (token_user_id token_data) (fun user => Ret user)
        else Ret None
    | None => Ret None
    end
  else Ret None.

(** [load_user(user_id)]. *)
Definition load_user (user_id : string) : Prog (option User.t) :=
  UserGet user_id (fun user => Ret user).

(** [current_user], when it is authenticated: the user that [load_user]
    finds for the user id of the session. *)
Definition current_user (session : option string) : Prog (option User.t) :=
  match session with
  | Some user_id => load_user user_id
  | None => Ret None
  end.

(** The answer of a route under [api_login_required]. *)
Inductive ApiResponse : Type :=
| NotAuthenticated         (* 401 *)
| Served (r : Response).

(** [api_login_required(f)]. *)
Definition api_login_required (f : User.t -> Prog Response)
  (session : option string) (auth_tokens : dict TokenData)
  (authorization : option string) (utcnow : datetime) : Prog ApiResponse :=
  authenticated <- current_user session ;;
  user <- match authenticated with
          | Some user => Ret (Some user)
          | None => get_user_from_token auth_tokens authorization utcnow
          end ;;
  match user with
  | None => Ret NotAuthenticated
  | Some user => r <- f user ;; Ret (Served r)
  end.

(** The answer of [GET /auth/user]. *)
Inductive AuthUser : Type :=
| Authenticated (id name email : string) (picture : option string)
| Anonymous.

(** [get_current_user()]. *)
Definition get_current_user (session : option string)
  (auth_tokens : dict TokenData) (authorization : option string)
  (utcnow : datetime) : Prog AuthUser :=
  authenticated <- current_user session ;;
  user <- match authenticated with
          | Some user => Ret (Some user)
          | None => get_user_from_token auth_tokens authorization utcnow
          end ;;
  match user with
  | Some user =>
      Ret (Authenticated (User.id user) (User.name user) (User.email user)
                         (User.picture user))
  | None => Ret Anonymous
  end.

(** What [google.authorize_access_token()] does: it raises, or returns a
    token whose ['userinfo'], if it has one, is a dict of strings. *)
Inductive Authorized : Type :=
| AuthorizeRaises
| AuthorizeToken (userinfo : option (dict string)).

(** The exceptions of the callback; [except Exception] catches them all. *)
Inductive CallbackExn : Type :=
| OAuthError
| KeyError (key : string)
| UsersIntegrityError.

(** The three times of a callback that goes through: [created_at] of a
    new row, [datetime.utcnow()] for the expiry of the token, and
    [datetime.utcnow()] for the sweep. *)
Record Clock : Type := {
  at_insert : datetime;
  at_issue : datetime;
  at_sweep : datetime
}.

(** The process: the database and the token store. *)
Record Server : Type := {
  srv_db : Db;
  auth_tokens : dict TokenData
}.

(** [db.session.add(user); db.session.commit()]: [users.email] is
    unique. *)
Definition add_user (db : Db) (user : User.t) : CallbackExn + Db :=
  if existsb (fun u => String.eqb (User.id u) (User.id user)
                       || String.eqb (User.email u) (User.email user))
             (users db)
  then inl UsersIntegrityError
  else inr {| users := users db ++ [user]; checkins := checkins db |}.

(** [user.name = name; user.picture = picture; db.session.commit()], for
    the row with primary key [id]. *)
Definition update_user (db : Db) (id name : string) (picture : option string)
  : Db :=
  {| users :=
       map (fun u =>
              if String.eqb (User.id u) id
              then {| User.id := User.id u;
                      User.email := User.email u;
                      User.name := name;
                      User.picture := picture;
                      User.created_at := User.created_at u |}
              else u)
           (users db);
     checkins := checkins db |}.

(** The clean-up of expired tokens. *)
Definition expired_tokens (tokens : dict TokenData) (now : datetime)
  : list string :=
  map fst (filter (fun item => Z.ltb (token_expires (snd item)) now) tokens).

Definition sweep_tokens (tokens : dict TokenData) (now : datetime)
  : dict TokenData :=
  fold_left (fun d t => dict_del d t) (expired_tokens tokens now) tokens.

(** The body of the [try] of [auth_callback()], up to its [return] or to
    the exception; [session] is the user id in the session of the client
    and [auth_token] is [secrets.token_urlsafe(32)]. *)
Definition auth_callback_try (frontend_url : string) (authorized : Authorized)
  (auth_token : string) (clock : Clock) (srv : Server) (session : option string)
  : Server * option string * (CallbackExn + string) :=
  match authorized with
  | AuthorizeRaises => (srv, session, inl OAuthError)
  | AuthorizeToken None =>
      (srv, session, inr (frontend_url ++ "?error=auth_failed")%string)
  | AuthorizeToken (Some []) =>
      (srv, session, inr (frontend_url ++ "?error=auth_failed")%string)
  | AuthorizeToken (Some user_info) =>
      match dict_get user_info "sub" with
      | None => (srv, session, inl (KeyError "sub"))
      | Some sub =>
          let upserted :=
            match user_get (srv_db srv) sub with
            | None =>
                match dict_get user_info "email" with
                | None => inl (KeyError "email")
                | Some email =>
                    match dict_get user_info "name" with
                    | None => inl (KeyError "name")
                    | Some name =>
                        let user :=
                          {| User.id := sub;
                             User.email := email;
                             User.name := name;
                             User.picture := dict_get user_info "picture";
                             User.created_at := at_insert clock |} in
                        match add_user (srv_db srv) user with
                        | inl e => inl e
                        | inr db' => inr (db', user)
                        end
                    end
                end
            | Some user =>
                match dict_get user_info "name" with
                | None => inl (KeyError "name")
                | Some name =>
                    let picture := dict_get user_info "picture" in
                    inr (update_user (srv_db srv) sub name picture,
                         {| User.id := User.id user;
                            User.email := User.email user;
                            User.name := name;
                            User.picture := picture;
                            User.created_at := User.created_at user |})
                end
            end in
          match upserted with
          | inl e => (srv, session, inl e)
          | inr (db', user) =>
              let tokens :=
                dict_set (auth_tokens srv) auth_token
                  {| token_user_id := User.id user;
                     token_expires := (at_issue clock + THIRTY_DAYS)%Z |} in
              ({| srv_db := db';
                  auth_tokens := sweep_tokens tokens (at_sweep clock) |},
               Some (User.id user),
               inr (frontend_url ++ "?auth_token=" ++ auth_token)%string)
          end
      end
  end.

(** [auth_callback()]: the URL it redirects to. *)
Definition auth_callback (frontend_url : string) (authorized : Authorized)
  (auth_token : string) (clock : Clock) (srv : Server) (session : option string)
  : Server * option string * string :=
  match auth_callback_try frontend_url authorized auth_token clock srv session with
  | (srv', session', inr url) => (srv', session', url)
  | (srv', session', inl e) =>
      (srv', session', (frontend_url ++ "?error=auth_error")%string)
  end.

(** [logout()]. *)
Definition logout (frontend_url : string) (session : option string)
  : option string * string :=
  (None, frontend_url).

(** The protected routes. *)
Definition verify_location_route (data : option Json.t) (today : date) :=
  api_login_required (fun user => verify_location user data today).

Definition checkin_route (data : option Json.t) (today : date) (now : datetime) :=
  api_login_required (fun user => checkin user data today now).

Definition get_status_route (today : date) :=
  api_login_required (fun user => get_status user today).

(** Who a request is made by, if anybody: the user of the session, or else
    the user of an unexpired bearer token. *)
Definition principal (db : Db) (session : option string)
  (tokens : dict TokenData) (authorization : option string)
  (utcnow : datetime) : option User.t :=
  match match session with
        | Some user_id => user_get db user_id
        | None => None
        end with
  | Some user => Some user
  | None =>
      match authorization with
      | Some header =>
          if String.prefix "Bearer " header then
            match dict_get tokens (string_drop 7 header) with
            | Some td =>
                if Z.ltb utcnow (token_expires td)
                then user_get db (token_user_id td)
                else None
            | None => None
            end
          else None
      | None => None
      end
  end.

(* ================================================================== *)
(** * Morph frames ([generate_morph.py]) *)
(* ================================================================== *)

(** A node of the mapping: a position [(x, y)] for the point [(u, v)]. *)
Module Node.
Record t : Type := Build {
  x : R;
  y : R;
  u : R;
  v : R
}.
End Node.

(** [interpolate_nodes(nodes1, nodes2, t)]. *)
Fixpoint interpolate_nodes (nodes1 nodes2 : list Node.t) (t : R)
  : list Node.t :=
  match nodes1, nodes2 with
  | n1 :: rest1, n2 :: rest2 =>
      {| Node.x := (Node.x n1 * (1 - t) + Node.x n2 * t)%R;
         Node.y := (Node.y n1 * (1 - t) + Node.y n2 * t)%R;
         Node.u := Node.u n1;
         Node.v := Node.v n1 |} :: interpolate_nodes rest1 rest2 t
  | _, _ => []
  end.

(* ================================================================== *)
(** * Vocabulary of the properties *)
(* ================================================================== *)

(** [unique_user_date]: at most one row for each user and date. *)
Definition unique_user_date (rows : list CheckIn.t) : Prop :=
  forall uid d, (List.length (filter (by_user_date uid d) rows) <= 1)%nat.

(** The foreign key [checkins.user_id -> users.id]. *)
Definition users_exist (db : Db) : Prop :=
  forall r, In r (checkins db) -> user_get db (CheckIn.user_id r) <> None.

(** A program that never commits. *)
Inductive read_only (A : Type) : Prog A -> Prop :=
| ro_Ret a : read_only (Ret a)
| ro_Raise e : read_only (Raise e)
| ro_FirstByUserDate uid d k :
    (forall x, read_only (k x)) -> read_only (FirstByUserDate uid d k)
| ro_AllByDate d k :
    (forall x, read_only (k x)) -> read_only (AllByDate d k)
| ro_DistinctDatesDesc n k :
    (forall x, read_only (k x)) -> read_only (DistinctDatesDesc n k)
| ro_UserGet uid k :
    (forall x, read_only (k x)) -> read_only (UserGet uid k).

(** A [POST /api/checkin] with all it depends on. *)
Record CheckinCall : Type := {
  call_user : User.t;
  call_data : option Json.t;
  call_today : date;
  call_now : datetime
}.

(** Check-in requests served one after the other. *)
Fixpoint serve_checkins (calls : list CheckinCall) (db : Db) : Db :=
  match calls with
  | [] => db
  | c :: rest =>
      serve_checkins rest
        (fst (run (checkin (call_user c) (call_data c) (call_today c)
                           (call_now c)) db))
  end.

(** The errors of the taxonomy. *)
Definition is_validation_error (o : Exn + Response) : bool :=
  match o with
  | inr MissingCoordinates | inr PhotoRequired => true
  | _ => false
  end.

Definition is_out_of_range (o : Exn + Response) : bool :=
  match o with
  | inr (TooFar _ _) => true
  | _ => false
  end.

Definition is_already_checked_in (o : Exn + Response) : bool :=
  match o with
  | inr (AlreadyCheckedIn _) => true
  | _ => false
  end.

Definition is_checked_in (o : Exn + Response) : bool :=
  match o with
  | inr (CheckedIn _ _) => true
  | _ => false
  end.

(** A submission with both coordinates. *)
Definition submission (lat lng : R) (photo : option string) : option Json.t :=
  Some {| Json.latitude := Some lat; Json.longitude := Some lng;
          Json.photo := photo |}.

(** A history entry is a leaderboard entry without its photo. *)
Definition without_photo (e : Entry.t) : HEntry.t :=
  {| HEntry.rank := Entry.rank e;
     HEntry.name := Entry.name e;
     HEntry.picture := Entry.picture e;
     HEntry.check_in_time := Entry.check_in_time e |}.

(** The leaderboard entry that shows a row. *)
Definition shows (db : Db) (row : CheckIn.t) (e : Entry.t) : Prop :=
  exists user,
    user_get db (CheckIn.user_id row) = Some user /\
    Entry.name e = User.name user /\
    Entry.picture e = User.picture user /\
    Entry.check_in_time e = CheckIn.check_in_time row /\
    Entry.photo e = CheckIn.photo_data row.

(** The row [checkin] builds, before it has its primary key. *)
Definition new_checkin (user : User.t) (lat lng : R) (photo : option string)
  (today : date) (now : datetime) (id : Z) : CheckIn.t :=
  {| CheckIn.id := id;
     CheckIn.user_id := User.id user;
     CheckIn.check_in_date := today;
     CheckIn.check_in_time := now;
     CheckIn.latitude := lat;
     CheckIn.longitude := lng;
     CheckIn.photo_data := photo |}.

(** A user, a table that holds only her, and a submission with a photo
    made at the reference point. *)
Definition alice : User.t :=
  {| User.id := "alice"; User.email := "alice@example.org";
     User.name := "Alice"; User.picture := None; User.created_at := 0%Z |}.

Definition only_alice : Db := {| users := [alice]; checkins := [] |}.

Definition at_the_park : option Json.t :=
  submission SCIENCE_PARK_LAT SCIENCE_PARK_LNG (Some "jpeg"%string).

(** The same submission made ninety degrees of latitude to the south. *)
Definition far_away : option Json.t :=
  submission (SCIENCE_PARK_LAT - 90) SCIENCE_PARK_LNG (Some "jpeg"%string).

Definition bob : User.t :=
  {| User.id := "bob"; User.email := "bob@example.org";
     User.name := "Bob"; User.picture := Some "bob.png"%string;
     User.created_at := 0%Z |}.

(** Alice has checked in at 900 on day 739000. *)
Definition alice_checked_in : Db :=
  {| users := [alice; bob];
     checkins := [new_checkin alice SCIENCE_PARK_LAT SCIENCE_PARK_LNG
                    (Some "jpeg"%string) 739000%Z 900%Z 1%Z] |}.

(** Bob has checked in too, at 905 on the same day. *)
Definition both_checked_in : Db :=
  {| users := [alice; bob];
     checkins := [new_checkin alice SCIENCE_PARK_LAT SCIENCE_PARK_LNG
                    (Some "jpeg"%string) 739000%Z 900%Z 1%Z;
                  new_checkin bob SCIENCE_PARK_LAT SCIENCE_PARK_LNG
                    (Some "png"%string) 739000%Z 905%Z 2%Z] |}.

(** What is left of [checkin] once [first()] has answered. *)
Definition after_first (user : User.t) (lat lng : R) (photo : option string)
  (today : date) (now : datetime) (distance : R)
  (existing : option CheckIn.t) : Prog Response :=
  match existing with
  | Some existing => Ret (AlreadyCheckedIn (CheckIn.check_in_time existing))
  | None =>
      AddCommit (new_checkin user lat lng photo today now)
        (fun checkin =>
           Ret (CheckedIn (CheckIn.check_in_time checkin) (round1 distance)))
  end.

(** The states a check-in goes through while it is served: [db] is the
    table it would meet at its next operation. *)
Inductive serving (user : User.t) (today : date) (db : Db)
  : Prog Response -> Prop :=
| sv_answered p o :
    outcome p = Some o -> is_checked_in o = false -> serving user today db p
| sv_query lat lng photo now distance :
    serving user today db
      (FirstByUserDate (User.id user) today
         (after_first user lat lng photo today now distance))
| sv_commit lat lng photo now distance :
    serving user today db (after_first user lat lng photo today now distance None)
| sv_checked_in t distance :
    existsb (by_user_date (User.id user) today) (checkins db) = true ->
    serving user today db (Ret (CheckedIn t distance)).

Definition succeeded (p : Prog Response) : bool :=
  match outcome p with
  | Some o => is_checked_in o
  | None => false
  end.

(** A day of the history lists the daily leaderboard of its date, less the
    photos. *)
Definition day_of_leaderboard (db : Db) (day : Day.t) : Prop :=
  exists lb,
    run (get_leaderboard (Day.date day)) db
    = (db, inr (Leaderboard (Day.date day) lb)) /\
    Day.entries day = map without_photo lb.

(** A check-in of a valid submission in range, with what it submits. *)
Record Attempt : Type := {
  at_user : User.t;
  at_lat : R;
  at_lng : R;
  at_photo : option string;
  at_today : date;
  at_now : datetime;
  at_distance : R
}.

(** Its request, and what is left of it before the query, before the
    commit and after it. *)
Definition attempt_request (a : Attempt) : Prog Response :=
  checkin (at_user a) (submission (at_lat a) (at_lng a) (at_photo a))
          (at_today a) (at_now a).

Definition attempt_query (a : Attempt) : Prog Response :=
  FirstByUserDate (User.id (at_user a)) (at_today a)
    (after_first (at_user a) (at_lat a) (at_lng a) (at_photo a)
                 (at_today a) (at_now a) (at_distance a)).

Definition attempt_commit (a : Attempt) : Prog Response :=
  after_first (at_user a) (at_lat a) (at_lng a) (at_photo a)
              (at_today a) (at_now a) (at_distance a) None.

Definition attempt_done (a : Attempt) : Prog Response :=
  Ret (CheckedIn (at_now a) (round1 (at_distance a))).

Definition attempt_row (a : Attempt) (id : Z) : CheckIn.t :=
  new_checkin (at_user a) (at_lat a) (at_lng a) (at_photo a)
              (at_today a) (at_now a) id.

Definition valid_attempt (a : Attempt) : Prop :=
  haversine_distance (at_lat a) (at_lng a) SCIENCE_PARK_LAT SCIENCE_PARK_LNG
  = inr (at_distance a) /\
  (at_distance a <= 10000)%R /\
  at_photo a <> None /\ at_photo a <> Some EmptyString.

(** An attempt that has not committed yet. *)
Inductive pending (a : Attempt) : Prog Response -> Prop :=
| pending_query : pending a (attempt_query a)
| pending_commit : pending a (attempt_commit a).

(** An attempt while another one holds the row, stored at time [t]: it
    can still be before its query or its commit, or it has been answered
    "already checked in" at [t], or its commit was refused. *)
Inductive beaten (a : Attempt) (t : datetime) : Prog Response -> Prop :=
| beaten_pending p : pending a p -> beaten a t p
| beaten_answered : beaten a t (Ret (AlreadyCheckedIn t))
| beaten_refused : beaten a t (Raise IntegrityError).

(** Two attempts of one user for one date, served together from a table
    [db0] without a row of that user and date. *)
Inductive race (a1 a2 : Attempt) (db0 db : Db)
  : Prog Response -> Prog Response -> Prop :=
| race_open p1 p2 :
    db = db0 -> pending a1 p1 -> pending a2 p2 -> race a1 a2 db0 db p1 p2
| race_first p2 :
    db = {| users := users db0;
            checkins := checkins db0 ++ [attempt_row a1 (next_id db0)] |} ->
    beaten a2 (at_now a1) p2 ->
    race a1 a2 db0 db (attempt_done a1) p2
| race_second p1 :
    db = {| users := users db0;
            checkins := checkins db0 ++ [attempt_row a2 (next_id db0)] |} ->
    beaten a1 (at_now a2) p1 ->
    race a1 a2 db0 db p1 (attempt_done a2).

(** An attempt as it is served next to attempts for other users or dates:
    before its query or its commit with no row of its own in the table, or
    done with its row in it. *)
Inductive unhindered (a : Attempt) (db : Db) : Prog Response -> Prop :=
| unhindered_pending p :
    first_by_user_date db (User.id (at_user a)) (at_today a) = None ->
    pending a p -> unhindered a db p
| unhindered_done id :
    In (attempt_row a id) (checkins db) -> unhindered a db (attempt_done a).

(** Two check-ins of alice made at the reference point on day 739000,
    and one of bob. *)
Definition alice_at_900 : Attempt :=
  {| at_user := alice; at_lat := SCIENCE_PARK_LAT; at_lng := SCIENCE_PARK_LNG;
     at_photo := Some "jpeg"%string; at_today := 739000%Z; at_now := 900%Z;
     at_distance := 0%R |}.

Definition alice_at_905 : Attempt :=
  {| at_user := alice; at_lat := SCIENCE_PARK_LAT; at_lng := SCIENCE_PARK_LNG;
     at_photo := Some "jpeg"%string; at_today := 739000%Z; at_now := 905%Z;
     at_distance := 0%R |}.

Definition bob_at_905 : Attempt :=
  {| at_user := bob; at_lat := SCIENCE_PARK_LAT; at_lng := SCIENCE_PARK_LNG;
     at_photo := Some "png"%string; at_today := 739000%Z; at_now := 905%Z;
     at_distance := 0%R |}.

(** A token store with a token of alice that expires at 1000, and a
    stale one of bob that expired at 500. *)
Definition sample_tokens : dict TokenData :=
  [ ("tok-a"%string, {| token_user_id := "alice"; token_expires := 1000%Z |});
    ("tok-b"%string, {| token_user_id := "bob"; token_expires := 500%Z |}) ].

(** The token that a callback stores. *)
Definition issued (sub : string) (clock : Clock) : TokenData :=
  {| token_user_id := sub;
     token_expires := (at_issue clock + THIRTY_DAYS)%Z |}.

(** The process with alice as its only user, the user info of bob's
    first login, that of a stranger who claims alice's address, and the
    times of a callback. *)
Definition sample_server : Server :=
  {| srv_db := only_alice; auth_tokens := sample_tokens |}.

Definition bob_info : dict string :=
  [ ("sub", "bob"); ("email", "bob@example.org"); ("name", "Bob");
    ("picture", "bob.png") ]%string.


Definition sample_clock : Clock :=
  {| at_insert := 600%Z; at_issue := 601%Z; at_sweep := 602%Z |}.

(* ================================================================== *)
(** * The haversine formula *)
(* ================================================================== *)

Section GeofenceFacts.

Local Open Scope R_scope.

Lemma radians_minus x y : radians (x - y) = radians x - radians y.
Proof. unfold radians. ring. Qed.

Lemma sin_sqr_opp x : sin (- x) ^ 2 = sin x ^ 2.
Proof. rewrite sin_neg. ring. Qed.

Lemma haversine_a_sym lat1 lon1 lat2 lon2 :
  haversine_a lat1 lon1 lat2 lon2 = haversine_a lat2 lon2 lat1 lon1.
Proof.
  unfold haversine_a.
  replace (radians (lat1 - lat2) / 2) with (- (radians (lat2 - lat1) / 2))
    by (rewrite !radians_minus; field).
  replace (radians (lon1 - lon2) / 2) with (- (radians (lon2 - lon1) / 2))
    by (rewrite !radians_minus; field).
  rewrite !sin_sqr_opp. ring.
Qed.

Lemma haversine_a_same lat lon : haversine_a lat lon lat lon = 0.
Proof.
  unfold haversine_a.
  replace (radians (lat - lat) / 2) with 0 by (unfold radians; field).
  replace (radians (lon - lon) / 2) with 0 by (unfold radians; field).
  rewrite sin_0. ring.
Qed.





Lemma math_sqrt_nonneg x : 0 <= x -> math_sqrt x = inr (sqrt x).
Proof.
  intros Hx. unfold math_sqrt. destruct (Rlt_dec x 0); [lra | reflexivity].
Qed.


Lemma atan2_0_1 : atan2 0 1 = 0.
Proof.
  unfold atan2. destruct (Rlt_dec 0 1); [| lra].
  replace (0 / 1) with 0 by field. apply atan_0.
Qed.


Lemma haversine_distance_same lat lon :
  haversine_distance lat lon lat lon = inr 0.
Proof.
  unfold haversine_distance. rewrite haversine_a_same.
  rewrite math_sqrt_nonneg by lra.
  rewrite math_sqrt_nonneg by lra.
  rewrite sqrt_0. replace (1 - 0) with 1 by ring. rewrite sqrt_1, atan2_0_1.
  f_equal. ring.
Qed.

Lemma sin_sqr_PI4 : sin (PI / 4) ^ 2 = 1 / 2.
Proof.
  rewrite sin_PI4.
  assert (Hs : sqrt 2 * sqrt 2 = 2) by (apply sqrt_def; lra).
  assert (Hp : 0 < sqrt 2) by (apply sqrt_lt_R0; lra).
  field_simplify; [| lra]. rewrite <- Hs at 2. field. lra.
Qed.

Lemma atan2_diagonal x : 0 < x -> atan2 x x = PI / 4.
Proof.
  intros Hx. unfold atan2. destruct (Rlt_dec 0 x); [| contradiction].
  replace (x / x) with 1 by (field; lra). apply atan_1.
Qed.

(** A quarter of a meridian: ninety degrees of latitude apart. *)
Lemma haversine_distance_quarter lat lon :
  haversine_distance (lat - 90) lon lat lon = inr (EARTH_RADIUS * (PI / 2)).
Proof.
  assert (Ea : haversine_a (lat - 90) lon lat lon = 1 / 2).
  { unfold haversine_a.
    replace (radians (lat - (lat - 90)) / 2) with (PI / 4)
      by (unfold radians; field).
    replace (radians (lon - lon) / 2) with 0 by (unfold radians; field).
    rewrite sin_sqr_PI4, sin_0. ring. }
  unfold haversine_distance. rewrite Ea.
  replace (1 - 1 / 2) with (1 / 2) by field.
  rewrite math_sqrt_nonneg by lra.
  rewrite atan2_diagonal by (apply sqrt_lt_R0; lra).
  f_equal. field.
Qed.

Lemma quarter_meridian_too_far : EARTH_RADIUS * (PI / 2) > 10000.
Proof.
  pose proof PI2_1 as H. unfold EARTH_RADIUS. nra.
Qed.

(** C8: the haversine distance is symmetric in its two coordinate pairs
    and is zero between a point and itself. *)
Theorem haversine_distance_symmetric_zero :
  (forall a b c d, haversine_distance a b c d = haversine_distance c d a b) /\
  (forall a b, haversine_distance a b a b = inr 0).
Proof.
  split.
  - intros a b c d. unfold haversine_distance.
    rewrite (haversine_a_sym a b c d). reflexivity.
  - exact haversine_distance_same.
Qed.






End GeofenceFacts.

(* ================================================================== *)
(** * The storage layer *)
(* ================================================================== *)

Lemma by_user_date_true uid d r :
  by_user_date uid d r = true <->
  CheckIn.user_id r = uid /\ CheckIn.check_in_date r = d.
Proof.
  unfold by_user_date. rewrite andb_true_iff, String.eqb_eq, Z.eqb_eq.
  reflexivity.
Qed.

Lemma existsb_false_filter (A : Type) (f : A -> bool) l :
  existsb f l = false -> filter f l = [].
Proof.
  induction l as [| x l IH]; simpl; [reflexivity |].
  intros H. apply orb_false_iff in H as [Hx Hl]. rewrite Hx. auto.
Qed.

Lemma find_some_existsb (A : Type) (f : A -> bool) l :
  find f l <> None <-> existsb f l = true.
Proof.
  induction l as [| x l IH]; simpl.
  - split; [congruence | discriminate].
  - destruct (f x); simpl; [split; [reflexivity | discriminate] | exact IH].
Qed.

Lemma find_none_existsb (A : Type) (f : A -> bool) l :
  find f l = None <-> existsb f l = false.
Proof.
  pose proof (find_some_existsb f l) as H.
  destruct (find f l), (existsb f l); intuition congruence.
Qed.

Lemma find_app_none (A : Type) (f : A -> bool) l l' :
  find f l = None -> find f (l ++ l') = find f l'.
Proof.
  induction l as [| x l IH]; simpl; [reflexivity |].
  destruct (f x); [discriminate | exact IH].
Qed.

Lemma unique_nil : unique_user_date [].
Proof. intros uid d. simpl. lia. Qed.

(** A commit keeps the table as it is or appends one row, and the
    constraint holds afterwards in both cases. *)
Lemma add_commit_unique db new db' row :
  unique_user_date (checkins db) ->
  add_commit db new = inr (db', row) ->
  unique_user_date (checkins db').
Proof.
  intros Hu. unfold add_commit.
  destruct (existsb _ (checkins db)) eqn:Hex; [discriminate |].
  intros H. inversion H; subst; clear H. simpl.
  intros uid d. rewrite filter_app, length_app. simpl.
  destruct (by_user_date uid d (new (next_id db))) eqn:Hk; simpl.
  - apply by_user_date_true in Hk as [<- <-].
    rewrite (existsb_false_filter _ _ Hex). simpl. lia.
  - specialize (Hu uid d). lia.
Qed.

Lemma exec_op_unique (A : Type) (p : Prog A) db :
  unique_user_date (checkins db) ->
  unique_user_date (checkins (fst (exec_op db p))).
Proof.
  intros Hu. destruct p; simpl; try exact Hu.
  destruct (add_commit db new) as [e | [db' row]] eqn:E; simpl; [exact Hu |].
  eapply add_commit_unique; eauto.
Qed.

(** No program whatever can break the constraint. *)
Lemma run_unique (A : Type) (p : Prog A) :
  forall db, unique_user_date (checkins db) ->
             unique_user_date (checkins (fst (run p db))).
Proof.
  induction p as [a | e | uid d k IH | d k IH | n k IH | uid k IH | new k IH];
    intros db Hu; simpl; auto.
  destruct (add_commit db new) as [e | [db' row]] eqn:E; simpl; [exact Hu |].
  apply IH. eapply add_commit_unique; eauto.
Qed.

Lemma interleave_unique (A : Type) sched :
  forall db (p1 p2 : Prog A),
    unique_user_date (checkins db) ->
    unique_user_date (checkins (fst (interleave sched db p1 p2))).
Proof.
  induction sched as [| w s IH]; intros db p1 p2 Hu; simpl; [exact Hu |].
  destruct w.
  - pose proof (@exec_op_unique _ p1 db Hu) as H.
    destruct (exec_op db p1) as [db' p1']. apply IH. exact H.
  - pose proof (@exec_op_unique _ p2 db Hu) as H.
    destruct (exec_op db p2) as [db' p2']. apply IH. exact H.
Qed.

(** ** Programs that only read *)

Lemma run_read_only (A : Type) (p : Prog A) :
  read_only p -> forall db, fst (run p db) = db.
Proof.
  induction 1; intros db; simpl; auto.
Qed.

Lemma exec_op_read_only (A : Type) (p : Prog A) db :
  read_only p -> fst (exec_op db p) = db /\ read_only (snd (exec_op db p)).
Proof.
  intros H. destruct H; simpl; split; auto; constructor.
Qed.

Lemma bind_read_only (A B : Type) (p : Prog A) (f : A -> Prog B) :
  read_only p -> (forall a, read_only (f a)) -> read_only (bind p f).
Proof.
  intros Hp Hf. induction Hp; simpl; auto; constructor; auto.
Qed.

Lemma run_bind (A B : Type) (p : Prog A) (f : A -> Prog B) :
  forall db,
    run (bind p f) db =
    match run p db with
    | (db', inr a) => run (f a) db'
    | (db', inl e) => (db', inl e)
    end.
Proof.
  induction p as [a | e | uid d k IH | d k IH | n k IH | uid k IH | new k IH];
    intros db; simpl; auto.
  destruct (add_commit db new) as [e | [db' row]]; auto.
Qed.

(* ================================================================== *)
(** * The check-in routes *)
(* ================================================================== *)

(** After [first()] found nothing the commit cannot fail. *)
Lemma add_commit_after_first_none db user lat lng photo today now :
  first_by_user_date db (User.id user) today = None ->
  add_commit db (new_checkin user lat lng photo today now) =
  inr ({| users := users db;
          checkins := checkins db
                      ++ [new_checkin user lat lng photo today now (next_id db)] |},
       new_checkin user lat lng photo today now (next_id db)).
Proof.
  intros H. apply find_none_existsb in H.
  unfold add_commit. simpl. rewrite H. reflexivity.
Qed.

(** What [verify_location] does with a submission that has coordinates. *)
Lemma verify_location_run db user lat lng photo today distance :
  haversine_distance lat lng SCIENCE_PARK_LAT SCIENCE_PARK_LNG = inr distance ->
  run (verify_location user (submission lat lng photo) today) db =
  (db,
   inr (if too_far distance
        then TooFar (round1 distance) ALLOWED_RADIUS_METERS
        else match first_by_user_date db (User.id user) today with
             | Some existing => AlreadyCheckedIn (CheckIn.check_in_time existing)
             | None => LocationVerified (round1 distance) lat lng
             end)).
Proof.
  intros E. unfold verify_location, submission. simpl. rewrite E.
  destruct (too_far distance); simpl; [reflexivity |].
  destruct (first_by_user_date db (User.id user) today); reflexivity.
Qed.

(** What [checkin] does with a submission that has coordinates and a
    photo. *)
Lemma checkin_run db user lat lng photo today now distance :
  haversine_distance lat lng SCIENCE_PARK_LAT SCIENCE_PARK_LNG = inr distance ->
  photo <> None -> photo <> Some EmptyString ->
  run (checkin user (submission lat lng photo) today now) db =
  if too_far distance
  then (db, inr (TooFar (round1 distance) ALLOWED_RADIUS_METERS))
  else match first_by_user_date db (User.id user) today with
       | Some existing =>
           (db, inr (AlreadyCheckedIn (CheckIn.check_in_time existing)))
       | None =>
           ({| users := users db;
               checkins := checkins db
                           ++ [new_checkin user lat lng photo today now
                                           (next_id db)] |},
            inr (CheckedIn now (round1 distance)))
       end.
Proof.
  intros E Hp1 Hp2. unfold checkin, submission, photo_given. simpl.
  destruct photo as [s |]; [| congruence].
  destruct (String.eqb s EmptyString) eqn:Hs.
  { apply String.eqb_eq in Hs. congruence. }
  simpl. rewrite E.
  destruct (too_far distance); cbn [run]; [reflexivity |].
  destruct (first_by_user_date db (User.id user) today) eqn:F; [reflexivity |].
  cbn [run]. fold (new_checkin user lat lng (Some s) today now).
  rewrite (add_commit_after_first_none _ _ lat lng (Some s) _ now F).
  reflexivity.
Qed.

(** A check-in leaves the table as it is or appends the new row. *)
Lemma checkin_db db user data today now :
  fst (run (checkin user data today now) db) = db \/
  exists lat lng photo,
    first_by_user_date db (User.id user) today = None /\
    fst (run (checkin user data today now) db) =
    {| users := users db;
       checkins := checkins db
                   ++ [new_checkin user lat lng photo today now (next_id db)] |}.
Proof.
  unfold checkin.
  destruct data as [data |]; [| left; reflexivity].
  destruct (Json.latitude data) as [lat |]; [| left; reflexivity].
  destruct (Json.longitude data) as [lng |]; [| left; reflexivity].
  destruct (negb (photo_given data)); [left; reflexivity |].
  destruct (haversine_distance lat lng SCIENCE_PARK_LAT SCIENCE_PARK_LNG)
    as [e | distance]; [left; reflexivity |].
  destruct (too_far distance); [left; reflexivity |].
  cbn [run].
  destruct (first_by_user_date db (User.id user) today) eqn:F;
    [left; reflexivity |].
  right. exists lat, lng, (Json.photo data). split; [reflexivity |].
  cbn [run]. fold (new_checkin user lat lng (Json.photo data) today now).
  rewrite (add_commit_after_first_none _ _ lat lng (Json.photo data) _ now F).
  reflexivity.
Qed.

Lemma serve_checkins_unique calls :
  forall db, unique_user_date (checkins db) ->
             unique_user_date (checkins (serve_checkins calls db)).
Proof.
  induction calls as [| c rest IH]; intros db Hu; simpl; [exact Hu |].
  apply IH. apply run_unique. exact Hu.
Qed.

(** C1: at most one check-in exists for each user and date, and the
    check-in operation keeps it so: whatever requests were served since the
    table was empty, whatever one more request asks, and however the
    operations of two requests are interleaved; a request of a user who has
    a check-in for the date inserts nothing and does not succeed. *)
Theorem checkin_unique_user_date :
  (forall calls db,
      checkins db = [] ->
      unique_user_date (checkins (serve_checkins calls db))) /\
  (forall db user data today now,
      unique_user_date (checkins db) ->
      unique_user_date (checkins (fst (run (checkin user data today now) db)))) /\
  (forall db user data today now,
      first_by_user_date db (User.id user) today <> None ->
      fst (run (checkin user data today now) db) = db /\
      is_checked_in (snd (run (checkin user data today now) db)) = false) /\
  (forall sched db user1 data1 today1 now1 user2 data2 today2 now2,
      unique_user_date (checkins db) ->
      unique_user_date
        (checkins (fst (interleave sched db
                          (checkin user1 data1 today1 now1)
                          (checkin user2 data2 today2 now2))))).
Proof.
  split; [| split; [| split]].
  4: { intros sched db user1 data1 today1 now1 user2 data2 today2 now2 Hu.
       apply interleave_unique. exact Hu. }
  - intros calls db E. apply serve_checkins_unique. rewrite E. apply unique_nil.
  - intros db user data today now Hu. apply run_unique. exact Hu.
  - intros db user data today now Hex. unfold checkin.
    destruct data as [data |]; [| split; reflexivity].
    destruct (Json.latitude data) as [lat |]; [| split; reflexivity].
    destruct (Json.longitude data) as [lng |]; [| split; reflexivity].
    destruct (negb (photo_given data)); [split; reflexivity |].
    destruct (haversine_distance lat lng SCIENCE_PARK_LAT SCIENCE_PARK_LNG)
      as [e | distance]; [split; reflexivity |].
    destruct (too_far distance); [split; reflexivity |].
    simpl.
    destruct (first_by_user_date db (User.id user) today);
      [split; reflexivity | congruence].
Qed.

(** C3: the geofence test is inclusive at the boundary.  For a submission
    whose computed distance is [distance], the pre-flight verification and
    the check-in (of a submission with a photo) answer with the out-of-range
    error exactly when [distance] is strictly greater than the allowed
    radius of 10000 m; at a distance of exactly 10000 m neither does. *)
Theorem geofence_boundary_inclusive :
  forall db user lat lng photo today now distance,
    haversine_distance lat lng SCIENCE_PARK_LAT SCIENCE_PARK_LNG = inr distance ->
    ALLOWED_RADIUS_METERS = 10000%Z /\
    (is_out_of_range
       (snd (run (verify_location user (submission lat lng photo) today) db))
     = true <-> (distance > 10000)%R) /\
    (photo <> None -> photo <> Some EmptyString ->
     (is_out_of_range
        (snd (run (checkin user (submission lat lng photo) today now) db))
      = true <-> (distance > 10000)%R)) /\
    (distance = 10000%R ->
     is_out_of_range
       (snd (run (verify_location user (submission lat lng photo) today) db))
     = false /\
     is_out_of_range
       (snd (run (checkin user (submission lat lng photo) today now) db))
     = false).
Proof.
  intros db user lat lng photo today now distance E.
  assert (V : is_out_of_range
                (snd (run (verify_location user (submission lat lng photo) today) db))
              = true <-> (distance > 10000)%R).
  { rewrite (@verify_location_run db user lat lng photo today distance E). simpl.
    destruct (too_far distance) as [Hfar | Hnear]; simpl.
    - split; [intros _; exact Hfar | reflexivity].
    - split; [| intros H; contradiction].
      destruct (first_by_user_date db (User.id user) today); discriminate. }
  assert (C : photo <> None -> photo <> Some EmptyString ->
              (is_out_of_range
                 (snd (run (checkin user (submission lat lng photo) today now) db))
               = true <-> (distance > 10000)%R)).
  { intros Hp1 Hp2. rewrite (@checkin_run db user lat lng photo today now distance E Hp1 Hp2).
    destruct (too_far distance) as [Hfar | Hnear]; simpl.
    - split; [intros _; exact Hfar | reflexivity].
    - split; [| intros H; contradiction].
      destruct (first_by_user_date db (User.id user) today); discriminate. }
  split; [reflexivity |]. split; [exact V |]. split; [exact C |].
  intros Hd. split.
  - apply not_true_is_false. intros O. apply V in O. lra.
  - destruct photo as [s |].
    + destruct (String.eqb s EmptyString) eqn:Hs.
      * unfold checkin, submission, photo_given. simpl. rewrite Hs. reflexivity.
      * apply not_true_is_false. intros O.
        apply C in O; [lra | discriminate |].
        intros Heq. inversion Heq; subst. discriminate.
    + reflexivity.
Qed.

(** C6: a check-in submission without a photo is answered with a
    validation error, never with the geofence error, wherever the submitted
    location is, and creates no check-in; when the coordinates are there the
    error is the one about the photo. *)
Theorem checkin_requires_photo :
  forall db user data today now,
    match data with
    | Some d => photo_given d = false
    | None => True
    end ->
    fst (run (checkin user data today now) db) = db /\
    is_validation_error (snd (run (checkin user data today now) db)) = true /\
    is_out_of_range (snd (run (checkin user data today now) db)) = false /\
    status_code (snd (run (checkin user data today now) db)) = 400%Z /\
    (forall lat lng photo,
        data = submission lat lng photo ->
        snd (run (checkin user data today now) db) = inr PhotoRequired).
Proof.
  intros db user data today now H. unfold checkin.
  destruct data as [data |].
  - destruct (Json.latitude data) as [lat |] eqn:Elat;
      [destruct (Json.longitude data) as [lng |] eqn:Elng |].
    + rewrite H. simpl. repeat split; reflexivity.
    + simpl. repeat split; try reflexivity.
      intros lat' lng' photo E. inversion E; subst. simpl in Elng. discriminate.
    + simpl. repeat split; try reflexivity.
      intros lat' lng' photo E. inversion E; subst. simpl in Elat. discriminate.
  - simpl. repeat split; try reflexivity.
    intros lat lng photo E. discriminate.
Qed.

(** C7: when the check-in or the pre-flight verification answers "already
    checked in", the time in the answer is the completion time of the
    existing check-in of that user for that date, the only one there is;
    and a valid submission in range of a user who has a check-in for the
    date gets that answer. *)
Theorem already_checked_in_carries_time :
  (forall db user data today now t,
      unique_user_date (checkins db) ->
      snd (run (checkin user data today now) db) = inr (AlreadyCheckedIn t) \/
      snd (run (verify_location user data today) db) = inr (AlreadyCheckedIn t) ->
      (exists existing,
          In existing (checkins db) /\
          CheckIn.user_id existing = User.id user /\
          CheckIn.check_in_date existing = today /\
          CheckIn.check_in_time existing = t) /\
      (forall r,
          In r (checkins db) ->
          CheckIn.user_id r = User.id user ->
          CheckIn.check_in_date r = today ->
          CheckIn.check_in_time r = t)) /\
  (forall db user lat lng photo today now distance existing,
      haversine_distance lat lng SCIENCE_PARK_LAT SCIENCE_PARK_LNG = inr distance ->
      (distance <= 10000)%R ->
      first_by_user_date db (User.id user) today = Some existing ->
      run (verify_location user (submission lat lng photo) today) db =
      (db, inr (AlreadyCheckedIn (CheckIn.check_in_time existing))) /\
      (photo <> None -> photo <> Some EmptyString ->
       run (checkin user (submission lat lng photo) today now) db =
       (db, inr (AlreadyCheckedIn (CheckIn.check_in_time existing))))).
Proof.
  split.
  2: { intros db user lat lng photo today now distance existing E Hd F.
       split.
       - rewrite (@verify_location_run db user lat lng photo today distance E).
         destruct (too_far distance) as [Hfar | _].
         + unfold ALLOWED_RADIUS_METERS in Hfar. lra.
         + rewrite F. reflexivity.
       - intros Hp1 Hp2.
         rewrite (@checkin_run db user lat lng photo today now distance E Hp1 Hp2).
         destruct (too_far distance) as [Hfar | _].
         + unfold ALLOWED_RADIUS_METERS in Hfar. lra.
         + rewrite F. reflexivity. }
  intros db user data today now t Hu H.
  assert (F : exists existing,
             first_by_user_date db (User.id user) today = Some existing /\
             CheckIn.check_in_time existing = t).
  { destruct H as [H | H].
    - unfold checkin in H.
      destruct data as [data |]; [| discriminate].
      destruct (Json.latitude data) as [lat |]; [| discriminate].
      destruct (Json.longitude data) as [lng |]; [| discriminate].
      destruct (negb (photo_given data)); [discriminate |].
      destruct (haversine_distance lat lng SCIENCE_PARK_LAT SCIENCE_PARK_LNG)
        as [e | distance]; [discriminate |].
      destruct (too_far distance); [discriminate |].
      cbn [run] in H.
      destruct (first_by_user_date db (User.id user) today) as [existing |].
      + simpl in H. inversion H. eauto.
      + cbn [run] in H. destruct (add_commit db _) as [e | [db' row]];
          simpl in H; discriminate.
    - unfold verify_location in H.
      destruct data as [data |]; [| discriminate].
      destruct (Json.latitude data) as [lat |]; [| discriminate].
      destruct (Json.longitude data) as [lng |]; [| discriminate].
      destruct (haversine_distance lat lng SCIENCE_PARK_LAT SCIENCE_PARK_LNG)
        as [e | distance]; [discriminate |].
      destruct (too_far distance); [discriminate |].
      cbn [run] in H.
      destruct (first_by_user_date db (User.id user) today) as [existing |];
        simpl in H; [| discriminate].
      inversion H. eauto. }
  destruct F as [existing [F Ht]].
  apply find_some in F as [Hin Hk]. apply by_user_date_true in Hk as [Hid Hd].
  split; [exists existing; auto |].
  intros r Hr Hrid Hrd.
  specialize (Hu (User.id user) today).
  assert (Hk1 : by_user_date (User.id user) today existing = true)
    by (apply by_user_date_true; auto).
  assert (Hk2 : by_user_date (User.id user) today r = true)
    by (apply by_user_date_true; auto).
  assert (Hin1 : In existing (filter (by_user_date (User.id user) today) (checkins db)))
    by (apply filter_In; auto).
  assert (Hin2 : In r (filter (by_user_date (User.id user) today) (checkins db)))
    by (apply filter_In; auto).
  destruct (filter (by_user_date (User.id user) today) (checkins db))
    as [| x [| y l]]; simpl in *; [contradiction | | lia].
  destruct Hin1 as [<- | []], Hin2 as [<- | []]. exact Ht.
Qed.

(* ================================================================== *)
(** * The routes that only read *)
(* ================================================================== *)

Lemma verify_location_read_only user data today :
  read_only (verify_location user data today).
Proof.
  unfold verify_location.
  destruct data as [data |]; [| constructor].
  destruct (Json.latitude data) as [lat |]; [| constructor].
  destruct (Json.longitude data) as [lng |]; [| constructor].
  destruct (haversine_distance lat lng SCIENCE_PARK_LAT SCIENCE_PARK_LNG)
    as [e | distance]; [constructor |].
  destruct (too_far distance); constructor.
  intros [existing |]; constructor.
Qed.

Lemma get_status_read_only user today : read_only (get_status user today).
Proof.
  unfold get_status. constructor. intros [c |]; constructor.
Qed.

Lemma leaderboard_entries_read_only checkins :
  forall i, read_only (leaderboard_entries i checkins).
Proof.
  induction checkins as [| c rest IH]; intros i; simpl; constructor.
  intros [user |]; [| constructor].
  apply bind_read_only; [apply IH | intros; constructor].
Qed.

Lemma history_entries_read_only checkins :
  forall i, read_only (history_entries i checkins).
Proof.
  induction checkins as [| c rest IH]; intros i; simpl; constructor.
  intros [user |]; [| constructor].
  apply bind_read_only; [apply IH | intros; constructor].
Qed.

Lemma get_leaderboard_read_only today : read_only (get_leaderboard today).
Proof.
  unfold get_leaderboard. constructor. intros checkins.
  apply bind_read_only; [apply leaderboard_entries_read_only |].
  intros; constructor.
Qed.

Lemma history_days_read_only dates : read_only (history_days dates).
Proof.
  induction dates as [| d rest IH]; simpl; constructor.
  intros checkins.
  apply bind_read_only; [apply history_entries_read_only |].
  intros entries. apply bind_read_only; [exact IH | intros; constructor].
Qed.

Lemma get_history_read_only : read_only get_history.
Proof.
  unfold get_history. constructor. intros dates.
  apply bind_read_only; [apply history_days_read_only | intros; constructor].
Qed.

(** C9: the pre-flight verification, the status read, the daily
    leaderboard and the history leave the database as they found it,
    whatever it holds and whatever they answer. *)
Theorem reads_leave_ledger_unchanged :
  forall db user data today,
    fst (run (verify_location user data today) db) = db /\
    fst (run (get_status user today) db) = db /\
    fst (run (get_leaderboard today) db) = db /\
    fst (run get_history db) = db.
Proof.
  intros db user data today. repeat split; apply run_read_only.
  - apply verify_location_read_only.
  - apply get_status_read_only.
  - apply get_leaderboard_read_only.
  - apply get_history_read_only.
Qed.

(* ================================================================== *)
(** * Ordering *)
(* ================================================================== *)

Section SortFacts.

Variable A : Type.
Variable le : A -> A -> bool.
Hypothesis le_total : forall x y, le x y = true \/ le y x = true.
Hypothesis le_trans : forall x y z, le x y = true -> le y z = true -> le x z = true.

Lemma insert_by_perm x l : Permutation (insert_by le x l) (x :: l).
Proof.
  induction l as [| y l IH]; simpl; [apply Permutation_refl |].
  destruct (le x y); [apply Permutation_refl |].
  eapply perm_trans; [apply perm_skip, IH | apply perm_swap].
Qed.

Lemma sort_by_perm l : Permutation (sort_by le l) l.
Proof.
  induction l as [| x l IH]; simpl; [apply perm_nil |].
  eapply perm_trans; [apply insert_by_perm | apply perm_skip, IH].
Qed.

Lemma insert_by_sorted x l :
  StronglySorted (fun a b => le a b = true) l ->
  StronglySorted (fun a b => le a b = true) (insert_by le x l).
Proof.
  induction 1 as [| y l Hs IH Hy]; simpl.
  - constructor; constructor.
  - destruct (le x y) eqn:Hxy.
    + constructor; [constructor; assumption |].
      constructor; [exact Hxy |].
      eapply Forall_impl; [| exact Hy]. intros z Hz. eapply le_trans; eauto.
    + constructor; [exact IH |].
      eapply Permutation_Forall;
        [apply Permutation_sym, insert_by_perm |].
      constructor; [| exact Hy].
      destruct (le_total x y); congruence.
Qed.

Lemma sort_by_sorted l : StronglySorted (fun a b => le a b = true) (sort_by le l).
Proof.
  induction l as [| x l IH]; simpl; [constructor |].
  apply insert_by_sorted. exact IH.
Qed.

End SortFacts.

Lemma StronglySorted_map (A B : Type) (f : A -> B) (R : B -> B -> Prop) l :
  StronglySorted (fun a b => R (f a) (f b)) l -> StronglySorted R (map f l).
Proof.
  induction 1 as [| x l Hs IH Hx]; simpl; constructor; [exact IH |].
  apply Forall_map. exact Hx.
Qed.

Lemma firstn_In (A : Type) (x : A) l : forall n, In x (firstn n l) -> In x l.
Proof.
  induction l as [| y l IH]; intros [| n]; simpl; try tauto.
  intros [H | H]; [left; exact H | right; eapply IH; exact H].
Qed.

Lemma StronglySorted_weaken (A : Type) (R S : A -> A -> Prop) l :
  (forall a b, In a l -> In b l -> R a b -> S a b) ->
  StronglySorted R l -> StronglySorted S l.
Proof.
  intros H Hs. induction Hs as [| x l Hs IH Hx]; constructor.
  - apply IH. intros a b Ha Hb. apply H; right; assumption.
  - rewrite Forall_forall in *. intros y Hy.
    apply H; [left; reflexivity | right; exact Hy | apply Hx; exact Hy].
Qed.

Lemma StronglySorted_firstn (A : Type) (R : A -> A -> Prop) l :
  StronglySorted R l -> forall n, StronglySorted R (firstn n l).
Proof.
  induction 1 as [| x l Hs IH Hx]; intros [| n]; simpl; try constructor.
  - apply IH.
  - rewrite Forall_forall in *. intros y Hy. apply Hx.
    eapply firstn_In; eauto.
Qed.

Lemma all_by_date_perm db d :
  Permutation (all_by_date db d) (filter (by_date d) (checkins db)).
Proof. apply sort_by_perm. Qed.

Lemma all_by_date_sorted db d :
  StronglySorted Z.le (map CheckIn.check_in_time (all_by_date db d)).
Proof.
  apply StronglySorted_map.
  apply StronglySorted_weaken with (R := fun a b => time_asc a b = true).
  - intros a b _ _ H. apply Z.leb_le. exact H.
  - apply sort_by_sorted; unfold time_asc.
    + intros x y. rewrite !Z.leb_le. lia.
    + intros x y z. rewrite !Z.leb_le. lia.
Qed.

Lemma all_by_date_In db d r :
  In r (all_by_date db d) ->
  In r (checkins db) /\ CheckIn.check_in_date r = d.
Proof.
  intros H. apply (Permutation_in _ (all_by_date_perm db d)) in H.
  apply filter_In in H as [Hin Hd]. split; [exact Hin |].
  apply Z.eqb_eq. exact Hd.
Qed.

(** The dates of the history window: strictly descending, hence distinct,
    at most [n] of them, each the date of a row. *)
Lemma distinct_dates_desc_sorted db n :
  StronglySorted Z.gt (distinct_dates_desc db n).
Proof.
  unfold distinct_dates_desc. apply StronglySorted_firstn.
  set (ds := nodup Z.eq_dec (map CheckIn.check_in_date (checkins db))).
  assert (Hnd : NoDup (sort_by date_desc ds)).
  { eapply Permutation_NoDup;
      [apply Permutation_sym, sort_by_perm | apply NoDup_nodup]. }
  assert (Hs : StronglySorted (fun a b => date_desc a b = true)
                 (sort_by date_desc ds)).
  { apply sort_by_sorted; unfold date_desc.
    - intros x y. rewrite !Z.leb_le. lia.
    - intros x y z. rewrite !Z.leb_le. lia. }
  induction Hs as [| x l Hs IH Hx]; [constructor |].
  inversion Hnd as [| ? ? Hnotin Hnd']; subst.
  constructor; [apply IH; exact Hnd' |].
  rewrite Forall_forall in *. intros y Hy.
  specialize (Hx y Hy). unfold date_desc in Hx. apply Z.leb_le in Hx.
  assert (x <> y) by (intros ->; contradiction). lia.
Qed.

Lemma StronglySorted_gt_NoDup l : StronglySorted Z.gt l -> NoDup l.
Proof.
  induction 1 as [| x l Hs IH Hx]; constructor; [| exact IH].
  intros Hin. rewrite Forall_forall in Hx. specialize (Hx x Hin). lia.
Qed.

Lemma distinct_dates_desc_In db n d :
  In d (distinct_dates_desc db n) ->
  In d (map CheckIn.check_in_date (checkins db)).
Proof.
  unfold distinct_dates_desc. intros H. apply firstn_In in H.
  apply (Permutation_in _ (sort_by_perm date_desc _)) in H.
  apply nodup_In in H. exact H.
Qed.

(* ================================================================== *)
(** * The leaderboard routes *)
(* ================================================================== *)

(** The loop of the leaderboard over rows whose users all exist. *)
Lemma leaderboard_entries_run db rows :
  (forall r, In r rows -> user_get db (CheckIn.user_id r) <> None) ->
  forall i,
  exists lb,
    run (leaderboard_entries i rows) db = (db, inr lb) /\
    Forall2 (shows db) rows lb /\
    map Entry.rank lb = seq (i + 1) (List.length rows).
Proof.
  induction rows as [| c rest IH]; intros Hfk i; simpl.
  - exists []. repeat split. constructor.
  - destruct (user_get db (CheckIn.user_id c)) as [user |] eqn:U.
    2: { exfalso. apply (Hfk c); [left; reflexivity | exact U]. }
    destruct (IH (fun r Hr => Hfk r (or_intror Hr)) (S i))
      as [lb [Hrun [Hshow Hrank]]].
    rewrite run_bind, Hrun. simpl.
    eexists. split; [reflexivity |]. split.
    + constructor; [| exact Hshow]. exists user. simpl. auto.
    + simpl. f_equal. exact Hrank.
Qed.

(** The comprehension of the history computes the entries of the
    leaderboard loop, less the photo, or fails as it does. *)
Lemma history_entries_run db rows :
  forall i,
    run (history_entries i rows) db =
    match run (leaderboard_entries i rows) db with
    | (db', inr lb) => (db', inr (map without_photo lb))
    | (db', inl e) => (db', inl e)
    end.
Proof.
  induction rows as [| c rest IH]; intros i; simpl; [reflexivity |].
  destruct (user_get db (CheckIn.user_id c)) as [user |]; [| reflexivity].
  rewrite !run_bind, IH.
  destruct (run (leaderboard_entries (S i) rest) db) as [db' [e | lb]];
    reflexivity.
Qed.

Lemma get_leaderboard_run db today :
  run (get_leaderboard today) db =
  match run (leaderboard_entries 0 (all_by_date db today)) db with
  | (db', inr lb) => (db', inr (Leaderboard today lb))
  | (db', inl e) => (db', inl e)
  end.
Proof.
  unfold get_leaderboard. cbn [run]. rewrite run_bind.
  destruct (run (leaderboard_entries 0 (all_by_date db today)) db)
    as [db' [e | lb]]; reflexivity.
Qed.

Lemma shows_times db rows lb :
  Forall2 (shows db) rows lb ->
  map Entry.check_in_time lb = map CheckIn.check_in_time rows.
Proof.
  induction 1 as [| r e rows lb [user [_ [_ [_ [Ht _]]]]] _ IH]; simpl;
    [reflexivity |].
  rewrite Ht, IH. reflexivity.
Qed.

(** In a list sorted by time whose ranks count up, a strictly earlier time
    has a strictly smaller rank. *)
Lemma ranks_follow_times lb :
  forall i,
    StronglySorted Z.le (map Entry.check_in_time lb) ->
    map Entry.rank lb = seq i (List.length lb) ->
    forall e1 e2,
      In e1 lb -> In e2 lb ->
      (Entry.check_in_time e1 < Entry.check_in_time e2)%Z ->
      (Entry.rank e1 < Entry.rank e2)%nat.
Proof.
  induction lb as [| x lb IH]; intros i Hs Hr e1 e2 H1 H2 Hlt; [contradiction |].
  simpl in Hs, Hr. inversion Hs as [| ? ? Hs' Hx]; subst.
  injection Hr as Hrx Hr'.
  assert (Hge : forall e, In e lb -> (S i <= Entry.rank e)%nat).
  { intros e He. apply (in_map Entry.rank) in He. rewrite Hr' in He.
    apply in_seq in He. lia. }
  rewrite Forall_forall in Hx.
  destruct H1 as [<- | H1], H2 as [<- | H2].
  - lia.
  - specialize (Hge e2 H2). lia.
  - specialize (Hx _ (in_map Entry.check_in_time _ _ H1)). lia.
  - eapply IH; eauto.
Qed.

(** C4: the daily leaderboard shows exactly the check-ins of the date,
    ordered by ascending completion time, the entry at position [i] having
    rank [i + 1], so that ranks are contiguous from 1 and a strictly earlier
    time has a strictly smaller rank; when the ledger has no check-in for
    the date the leaderboard is the empty list, not an error. *)
Theorem daily_leaderboard_ranked :
  forall db today,
    (filter (by_date today) (checkins db) = [] ->
     run (get_leaderboard today) db = (db, inr (Leaderboard today []))) /\
    (users_exist db ->
     exists rows lb,
       run (get_leaderboard today) db = (db, inr (Leaderboard today lb)) /\
       Permutation rows (filter (by_date today) (checkins db)) /\
       Forall2 (shows db) rows lb /\
       StronglySorted Z.le (map Entry.check_in_time lb) /\
       map Entry.rank lb = seq 1 (List.length lb) /\
       (forall e1 e2,
           In e1 lb -> In e2 lb ->
           (Entry.check_in_time e1 < Entry.check_in_time e2)%Z ->
           (Entry.rank e1 < Entry.rank e2)%nat)).
Proof.
  intros db today. split.
  - intros E. rewrite get_leaderboard_run. unfold all_by_date. rewrite E.
    reflexivity.
  - intros Hfk.
    destruct (@leaderboard_entries_run db (all_by_date db today)
                (fun r Hr => Hfk r (proj1 (all_by_date_In db today r Hr))) 0%nat)
      as [lb [Hrun [Hshow Hrank]]].
    exists (all_by_date db today), lb.
    assert (Hlen : List.length lb = List.length (all_by_date db today)).
    { symmetry. eapply Forall2_length. exact Hshow. }
    assert (Hsorted : StronglySorted Z.le (map Entry.check_in_time lb)).
    { rewrite (shows_times Hshow). apply all_by_date_sorted. }
    assert (Hranks : map Entry.rank lb = seq 1 (List.length lb)).
    { rewrite Hlen. exact Hrank. }
    split; [rewrite get_leaderboard_run, Hrun; reflexivity |].
    split; [apply all_by_date_perm |].
    split; [exact Hshow |].
    split; [exact Hsorted |].
    split; [exact Hranks |].
    apply (ranks_follow_times lb 1 Hsorted Hranks).
Qed.

Lemma history_days_run db :
  users_exist db ->
  forall dates,
  exists history,
    run (history_days dates) db = (db, inr history) /\
    map Day.date history = dates /\
    Forall (day_of_leaderboard db) history.
Proof.
  intros Hfk. induction dates as [| d rest [history [Hrun [Hdates Hdays]]]].
  - exists []. simpl. repeat split. constructor.
  - destruct (@leaderboard_entries_run db (all_by_date db d)
                (fun r Hr => Hfk r (proj1 (all_by_date_In db d r Hr))) 0%nat)
      as [lb [Hlb _]].
    exists ({| Day.date := d; Day.entries := map without_photo lb |} :: history).
    split; [| split].
    + cbn [history_days run]. rewrite run_bind, history_entries_run, Hlb.
      rewrite run_bind, Hrun. reflexivity.
    + simpl. f_equal. exact Hdates.
    + constructor; [| exact Hdays].
      exists lb. cbn [Day.date Day.entries]. split; [| reflexivity].
      rewrite get_leaderboard_run, Hlb. reflexivity.
Qed.

(** C5: the history holds at most 30 days, their dates strictly
    descending and so without duplicates, each the date of some check-in;
    the entries of a day are those of the daily leaderboard of that date
    (ascending time, ranks from 1) without the photo. *)
Theorem history_window :
  forall db,
    users_exist db ->
    exists history,
      run get_history db = (db, inr (History history)) /\
      (List.length history <= 30)%nat /\
      StronglySorted Z.gt (map Day.date history) /\
      NoDup (map Day.date history) /\
      (forall day, In day history ->
                   In (Day.date day) (map CheckIn.check_in_date (checkins db))) /\
      Forall (day_of_leaderboard db) history.
Proof.
  intros db Hfk.
  destruct (history_days_run Hfk (distinct_dates_desc db 30))
    as [history [Hrun [Hdates Hdays]]].
  exists history.
  split; [unfold get_history; cbn [run]; rewrite run_bind, Hrun; reflexivity |].
  split.
  { rewrite <- (length_map Day.date), Hdates. apply firstn_le_length. }
  split; [rewrite Hdates; apply distinct_dates_desc_sorted |].
  split.
  { rewrite Hdates. apply StronglySorted_gt_NoDup.
    apply distinct_dates_desc_sorted. }
  split; [| exact Hdays].
  intros day Hday. apply (distinct_dates_desc_In db 30).
  rewrite <- Hdates. apply in_map. exact Hday.
Qed.

(* ================================================================== *)
(** * Two check-ins at once *)
(* ================================================================== *)

(** A check-in has answered without a query, or it starts with the query
    for the check-in of the user today. *)
Lemma checkin_shape user data today now :
  (exists o, outcome (checkin user data today now) = Some o /\
             is_checked_in o = false) \/
  (exists lat lng photo distance,
      checkin user data today now =
      FirstByUserDate (User.id user) today
        (after_first user lat lng photo today now distance)).
Proof.
  unfold checkin.
  destruct data as [data |]; [| left; eexists; split; reflexivity].
  destruct (Json.latitude data) as [lat |];
    [| left; eexists; split; reflexivity].
  destruct (Json.longitude data) as [lng |];
    [| left; eexists; split; reflexivity].
  destruct (negb (photo_given data)); [left; eexists; split; reflexivity |].
  destruct (haversine_distance lat lng SCIENCE_PARK_LAT SCIENCE_PARK_LNG)
    as [e | distance]; [left; eexists; split; reflexivity |].
  destruct (too_far distance); [left; eexists; split; reflexivity |].
  right. exists lat, lng, (Json.photo data), distance. reflexivity.
Qed.

(** A valid submission in range starts with the query. *)
Lemma checkin_in_range user lat lng photo today now distance :
  haversine_distance lat lng SCIENCE_PARK_LAT SCIENCE_PARK_LNG = inr distance ->
  (distance <= 10000)%R ->
  photo <> None -> photo <> Some EmptyString ->
  checkin user (submission lat lng photo) today now =
  FirstByUserDate (User.id user) today
    (after_first user lat lng photo today now distance).
Proof.
  intros E Hd Hp1 Hp2. unfold checkin, submission, photo_given. simpl.
  destruct photo as [s |]; [| congruence].
  destruct (String.eqb s EmptyString) eqn:Hs.
  { apply String.eqb_eq in Hs. congruence. }
  simpl. rewrite E.
  destruct (too_far distance) as [Hfar | _]; [| reflexivity].
  unfold ALLOWED_RADIUS_METERS in Hfar. lra.
Qed.

Lemma serving_start user data today now db :
  serving user today db (checkin user data today now).
Proof.
  destruct (checkin_shape user data today now)
    as [[o [Ho Hn]] | [lat [lng [photo [distance E]]]]].
  - eapply sv_answered; eauto.
  - rewrite E. constructor.
Qed.

(** One operation of a check-in: it stays in one of the states above, the
    table only grows by a row of this user and date, and it can succeed
    only when the table had no such row. *)
Lemma serving_step user today db p :
  serving user today db p ->
  serving user today (fst (exec_op db p)) (snd (exec_op db p)) /\
  (existsb (by_user_date (User.id user) today) (checkins db) = true ->
   existsb (by_user_date (User.id user) today) (checkins (fst (exec_op db p)))
   = true) /\
  (succeeded (snd (exec_op db p)) = true ->
   succeeded p = true \/
   existsb (by_user_date (User.id user) today) (checkins db) = false).
Proof.
  intros H. destruct H as [p o Ho Hn | lat lng photo now distance
                           | lat lng photo now distance | t distance Hex].
  - destruct p; simpl in *; try discriminate.
    + split; [eapply sv_answered; simpl; eauto | auto].
    + split; [eapply sv_answered; simpl; eauto | auto].
  - simpl. split; [| split; [auto |]].
    + destruct (first_by_user_date db (User.id user) today) as [existing |].
      * eapply sv_answered; simpl; eauto.
      * apply sv_commit.
    + destruct (first_by_user_date db (User.id user) today) as [existing |];
        simpl; discriminate.
  - unfold after_first. cbn [exec_op]. unfold add_commit. simpl.
    destruct (existsb (by_user_date (User.id user) today) (checkins db)) eqn:Hex;
      simpl.
    + split; [eapply sv_answered; simpl; eauto | auto].
    + split; [| split; [discriminate | auto]].
      apply sv_checked_in. simpl. rewrite existsb_app. simpl.
      unfold by_user_date at 2. simpl.
      rewrite String.eqb_refl, Z.eqb_refl. simpl. apply orb_true_r.
  - simpl. split; [apply sv_checked_in; exact Hex | auto].
Qed.

Lemma serving_grows user today db db' p :
  serving user today db p ->
  (existsb (by_user_date (User.id user) today) (checkins db) = true ->
   existsb (by_user_date (User.id user) today) (checkins db') = true) ->
  serving user today db' p.
Proof.
  intros H Hg. destruct H; try (econstructor; eauto; fail).
Qed.

Lemma serving_succeeded user today db p :
  serving user today db p -> succeeded p = true ->
  existsb (by_user_date (User.id user) today) (checkins db) = true.
Proof.
  intros H. destruct H as [p o Ho Hn | | | ]; unfold succeeded; simpl.
  - rewrite Ho, Hn. discriminate.
  - discriminate.
  - discriminate.
  - auto.
Qed.

(** Whatever the schedule, two check-ins of one user for one date do not
    both succeed: the constraint stops the second commit. *)
Lemma never_both_succeed user today sched :
  forall db p1 p2,
    serving user today db p1 -> serving user today db p2 ->
    succeeded p1 && succeeded p2 = false ->
    let '(_, (q1, q2)) := interleave sched db p1 p2 in
    succeeded q1 && succeeded q2 = false.
Proof.
  induction sched as [| w s IH]; intros db p1 p2 H1 H2 Hn; simpl; [exact Hn |].
  destruct w.
  - destruct (serving_step H1) as [S1 [G1 X1]].
    destruct (exec_op db p1) as [db' p1'] eqn:E. simpl in *.
    apply IH; [exact S1 | eapply serving_grows; eauto |].
    destruct (succeeded p1') eqn:Q1; [| reflexivity].
    destruct (succeeded p2) eqn:Q2; [| reflexivity].
    exfalso. destruct (X1 eq_refl) as [P1 | Hex].
    + rewrite P1 in Hn. discriminate.
    + rewrite (serving_succeeded H2 Q2) in Hex. discriminate.
  - destruct (serving_step H2) as [S2 [G2 X2]].
    destruct (exec_op db p2) as [db' p2'] eqn:E. simpl in *.
    apply IH; [eapply serving_grows; eauto | exact S2 |].
    destruct (succeeded p1) eqn:Q1; [| reflexivity].
    destruct (succeeded p2') eqn:Q2; [| reflexivity].
    exfalso. destruct (X2 eq_refl) as [P2 | Hex].
    + rewrite P2 in Hn. discriminate.
    + rewrite (serving_succeeded H1 Q1) in Hex. discriminate.
Qed.

(** Both requests query before either commits: the first commit inserts
    the row, the second one violates the constraint. *)
Lemma race_lost_at_commit db user lat lng photo today now1 now2 distance :
  haversine_distance lat lng SCIENCE_PARK_LAT SCIENCE_PARK_LNG = inr distance ->
  (distance <= 10000)%R ->
  photo <> None -> photo <> Some EmptyString ->
  first_by_user_date db (User.id user) today = None ->
  interleave [W1; W2; W1; W2] db
    (checkin user (submission lat lng photo) today now1)
    (checkin user (submission lat lng photo) today now2) =
  ({| users := users db;
      checkins := checkins db
                  ++ [new_checkin user lat lng photo today now1 (next_id db)] |},
   (Ret (CheckedIn now1 (round1 distance)), Raise IntegrityError)).
Proof.
  intros E Hd Hp1 Hp2 F.
  rewrite !(fun now => @checkin_in_range user lat lng photo today now distance E Hd Hp1 Hp2).
  cbn [interleave exec_op]. rewrite F. cbn [after_first exec_op].
  rewrite (add_commit_after_first_none _ _ lat lng photo _ now1 F).
  cbn [exec_op]. unfold add_commit. simpl.
  rewrite existsb_app. simpl. unfold by_user_date at 2. simpl.
  rewrite String.eqb_refl, Z.eqb_refl. simpl. rewrite orb_true_r.
  reflexivity.
Qed.

(** The second request comes after the first has committed: it finds the
    row and answers "already checked in". *)
Lemma second_after_first db user lat lng photo today now1 now2 distance :
  haversine_distance lat lng SCIENCE_PARK_LAT SCIENCE_PARK_LNG = inr distance ->
  (distance <= 10000)%R ->
  photo <> None -> photo <> Some EmptyString ->
  first_by_user_date db (User.id user) today = None ->
  interleave [W1; W1; W2; W2] db
    (checkin user (submission lat lng photo) today now1)
    (checkin user (submission lat lng photo) today now2) =
  ({| users := users db;
      checkins := checkins db
                  ++ [new_checkin user lat lng photo today now1 (next_id db)] |},
   (Ret (CheckedIn now1 (round1 distance)), Ret (AlreadyCheckedIn now1))).
Proof.
  intros E Hd Hp1 Hp2 F.
  rewrite !(fun now => @checkin_in_range user lat lng photo today now distance E Hd Hp1 Hp2).
  cbn [interleave exec_op]. rewrite F. cbn [after_first exec_op].
  rewrite (add_commit_after_first_none _ _ lat lng photo _ now1 F).
  cbn [exec_op]. unfold first_by_user_date in *. simpl.
  rewrite (find_app_none _ _ _ F). simpl. unfold by_user_date at 1. simpl.
  rewrite String.eqb_refl, Z.eqb_refl. simpl. reflexivity.
Qed.

Lemma at_the_park_distance :
  haversine_distance SCIENCE_PARK_LAT SCIENCE_PARK_LNG
                     SCIENCE_PARK_LAT SCIENCE_PARK_LNG = inr 0%R.
Proof. apply haversine_distance_same. Qed.

(** C2: two check-ins of alice, both valid and made at the reference
    point on the same date, served concurrently on a table without a
    check-in of hers.  When both have queried before either commits, the
    first commit succeeds and the second raises [IntegrityError], which no
    handler catches: the loser gets status 500, not the "already checked
    in" answer that it gets when it queries after the winner's commit.  In
    both schedules one row is stored, and under no schedule do both
    succeed. *)
Theorem concurrent_checkins_race :
  let p1 := checkin alice at_the_park 739000%Z 900%Z in
  let p2 := checkin alice at_the_park 739000%Z 905%Z in
  let row := new_checkin alice SCIENCE_PARK_LAT SCIENCE_PARK_LNG
               (Some "jpeg"%string) 739000%Z 900%Z 1%Z in
  interleave [W1; W2; W1; W2] only_alice p1 p2 =
  ({| users := [alice]; checkins := [row] |},
   (Ret (CheckedIn 900%Z (round1 0%R)), Raise IntegrityError)) /\
  is_already_checked_in (inl IntegrityError) = false /\
  status_code (inl IntegrityError) = 500%Z /\
  interleave [W1; W1; W2; W2] only_alice p1 p2 =
  ({| users := [alice]; checkins := [row] |},
   (Ret (CheckedIn 900%Z (round1 0%R)), Ret (AlreadyCheckedIn 900%Z))) /\
  (forall sched,
      let '(_, (q1, q2)) := interleave sched only_alice p1 p2 in
      succeeded q1 && succeeded q2 = false).
Proof.
  cbv zeta.
  assert (Hd : (0 <= 10000)%R) by lra.
  assert (Hp1 : Some "jpeg"%string <> None) by discriminate.
  assert (Hp2 : Some "jpeg"%string <> Some EmptyString) by discriminate.
  assert (F : first_by_user_date only_alice (User.id alice) 739000%Z = None)
    by reflexivity.
  split; [| split; [reflexivity | split; [reflexivity | split]]].
  3: { intros sched.
       apply (@never_both_succeed alice 739000%Z sched only_alice);
         try apply serving_start.
       unfold succeeded, at_the_park.
       rewrite (@checkin_in_range alice _ _ _ 739000%Z 900%Z 0%R
                  at_the_park_distance Hd Hp1 Hp2).
       reflexivity. }
  - exact (@race_lost_at_commit only_alice alice _ _ _ 739000%Z 900%Z 905%Z _
             at_the_park_distance Hd Hp1 Hp2 F).
  - exact (@second_after_first only_alice alice _ _ _ 739000%Z 900%Z 905%Z _
             at_the_park_distance Hd Hp1 Hp2 F).
Qed.

(* ================================================================== *)
(** * The properties on sample tables *)
(* ================================================================== *)

Lemma at_the_park_in_range : (0 <= 10000)%R.
Proof. lra. Qed.

Lemma alice_checked_in_unique : unique_user_date (checkins alice_checked_in).
Proof.
  intros uid d. simpl. destruct (by_user_date uid d _); simpl; lia.
Qed.

Lemma both_checked_in_users_exist : users_exist both_checked_in.
Proof.
  intros r [<- | [<- | []]]; simpl; discriminate.
Qed.

(** The scenario of the two users: alice at 900, then bob at 905. *)
Example leaderboard_alice_bob :
  run (get_leaderboard 739000%Z) both_checked_in =
  (both_checked_in,
   inr (Leaderboard 739000%Z
          [ {| Entry.rank := 1; Entry.name := "Alice"; Entry.picture := None;
               Entry.check_in_time := 900%Z;
               Entry.photo := Some "jpeg"%string |};
            {| Entry.rank := 2; Entry.name := "Bob";
               Entry.picture := Some "bob.png"%string;
               Entry.check_in_time := 905%Z;
               Entry.photo := Some "png"%string |} ])).
Proof. reflexivity. Qed.

Example history_alice_bob :
  run get_history both_checked_in =
  (both_checked_in,
   inr (History
          [ {| Day.date := 739000%Z;
               Day.entries :=
                 [ {| HEntry.rank := 1; HEntry.name := "Alice";
                      HEntry.picture := None; HEntry.check_in_time := 900%Z |};
                   {| HEntry.rank := 2; HEntry.name := "Bob";
                      HEntry.picture := Some "bob.png"%string;
                      HEntry.check_in_time := 905%Z |} ] |} ])).
Proof. reflexivity. Qed.

Example status_alice :
  run (get_status alice 739000%Z) alice_checked_in =
  (alice_checked_in, inr (Status true (Some 900%Z))).
Proof. reflexivity. Qed.

Example status_bob :
  run (get_status bob 739000%Z) alice_checked_in =
  (alice_checked_in, inr (Status false None)).
Proof. reflexivity. Qed.

Lemma checkin_unique_user_date_witness :
  unique_user_date
    (checkins
       (serve_checkins
          [ {| call_user := alice; call_data := at_the_park;
               call_today := 739000%Z; call_now := 900%Z |};
            {| call_user := alice; call_data := at_the_park;
               call_today := 739000%Z; call_now := 905%Z |} ]
          only_alice)) /\
  (unique_user_date (checkins alice_checked_in) /\
   unique_user_date
     (checkins
        (fst (run (checkin alice at_the_park 739000%Z 905%Z) alice_checked_in)))) /\
  (first_by_user_date alice_checked_in (User.id alice) 739000%Z <> None /\
   fst (run (checkin alice at_the_park 739000%Z 905%Z) alice_checked_in)
   = alice_checked_in /\
   is_checked_in
     (snd (run (checkin alice at_the_park 739000%Z 905%Z) alice_checked_in))
   = false).
Proof.
  assert (F : first_by_user_date alice_checked_in (User.id alice) 739000%Z <> None)
    by (simpl; discriminate).
  split; [| split].
  - apply (proj1 checkin_unique_user_date). reflexivity.
  - split; [exact alice_checked_in_unique |].
    apply (proj1 (proj2 checkin_unique_user_date)).
    exact alice_checked_in_unique.
  - split; [exact F |].
    apply (proj1 (proj2 (proj2 checkin_unique_user_date))). exact F.
Defined.

Lemma far_away_distance :
  haversine_distance (SCIENCE_PARK_LAT - 90) SCIENCE_PARK_LNG
                     SCIENCE_PARK_LAT SCIENCE_PARK_LNG
  = inr (EARTH_RADIUS * (PI / 2))%R.
Proof. apply haversine_distance_quarter. Qed.

Lemma geofence_boundary_inclusive_witness :
  (haversine_distance SCIENCE_PARK_LAT SCIENCE_PARK_LNG
                      SCIENCE_PARK_LAT SCIENCE_PARK_LNG = inr 0%R /\
   (is_out_of_range
      (snd (run (verify_location alice at_the_park 739000%Z) only_alice)) = true
    <-> (0 > 10000)%R) /\
   (is_out_of_range
      (snd (run (checkin alice at_the_park 739000%Z 900%Z) only_alice)) = true
    <-> (0 > 10000)%R)) /\
  (haversine_distance (SCIENCE_PARK_LAT - 90) SCIENCE_PARK_LNG
                      SCIENCE_PARK_LAT SCIENCE_PARK_LNG
   = inr (EARTH_RADIUS * (PI / 2))%R /\
   is_out_of_range
     (snd (run (verify_location alice far_away 739000%Z) only_alice)) = true /\
   is_out_of_range
     (snd (run (checkin alice far_away 739000%Z 900%Z) only_alice)) = true).
Proof.
  pose proof (@geofence_boundary_inclusive only_alice alice
                SCIENCE_PARK_LAT SCIENCE_PARK_LNG (Some "jpeg"%string)
                739000%Z 900%Z 0%R at_the_park_distance)
    as [_ [V [C _]]].
  pose proof (@geofence_boundary_inclusive only_alice alice
                (SCIENCE_PARK_LAT - 90)%R SCIENCE_PARK_LNG (Some "jpeg"%string)
                739000%Z 900%Z _ far_away_distance)
    as [_ [V' [C' _]]].
  split; split.
  - exact at_the_park_distance.
  - split; [exact V | apply C; discriminate].
  - exact far_away_distance.
  - split.
    + apply V'. exact quarter_meridian_too_far.
    + apply C'; [discriminate | discriminate | exact quarter_meridian_too_far].
Defined.

Lemma daily_leaderboard_ranked_witness :
  users_exist both_checked_in /\
  exists lb,
    run (get_leaderboard 739000%Z) both_checked_in
    = (both_checked_in, inr (Leaderboard 739000%Z lb)) /\
    StronglySorted Z.le (map Entry.check_in_time lb) /\
    map Entry.rank lb = seq 1 (List.length lb).
Proof.
  split; [exact both_checked_in_users_exist |].
  destruct (proj2 (daily_leaderboard_ranked both_checked_in 739000%Z)
              both_checked_in_users_exist)
    as [rows [lb [Hrun [_ [_ [Hs [Hr _]]]]]]].
  exists lb. auto.
Defined.

Lemma history_window_witness :
  users_exist both_checked_in /\
  exists history,
    run get_history both_checked_in = (both_checked_in, inr (History history)) /\
    (List.length history <= 30)%nat /\
    NoDup (map Day.date history).
Proof.
  split; [exact both_checked_in_users_exist |].
  destruct (history_window both_checked_in_users_exist)
    as [history [Hrun [Hlen [_ [Hnd _]]]]].
  exists history. auto.
Defined.

Lemma checkin_requires_photo_witness :
  photo_given {| Json.latitude := Some SCIENCE_PARK_LAT;
                 Json.longitude := Some SCIENCE_PARK_LNG;
                 Json.photo := None |} = false /\
  fst (run (checkin alice
              (submission SCIENCE_PARK_LAT SCIENCE_PARK_LNG None)
              739000%Z 900%Z) only_alice) = only_alice /\
  snd (run (checkin alice
              (submission SCIENCE_PARK_LAT SCIENCE_PARK_LNG None)
              739000%Z 900%Z) only_alice) = inr PhotoRequired.
Proof.
  split; [reflexivity |].
  pose proof (@checkin_requires_photo only_alice alice
                (submission SCIENCE_PARK_LAT SCIENCE_PARK_LNG None)
                739000%Z 900%Z eq_refl) as [Hdb [_ [_ [_ Hp]]]].
  split; [exact Hdb |].
  apply (Hp SCIENCE_PARK_LAT SCIENCE_PARK_LNG None). reflexivity.
Defined.

Lemma already_checked_in_carries_time_witness :
  unique_user_date (checkins alice_checked_in) /\
  snd (run (checkin alice at_the_park 739000%Z 905%Z) alice_checked_in)
  = inr (AlreadyCheckedIn 900%Z) /\
  (forall r,
      In r (checkins alice_checked_in) ->
      CheckIn.user_id r = User.id alice ->
      CheckIn.check_in_date r = 739000%Z ->
      CheckIn.check_in_time r = 900%Z).
Proof.
  assert (R : run (checkin alice at_the_park 739000%Z 905%Z) alice_checked_in
              = (alice_checked_in, inr (AlreadyCheckedIn 900%Z))).
  { refine (proj2 (proj2 already_checked_in_carries_time
                     alice_checked_in alice _ _ (Some "jpeg"%string)
                     739000%Z 905%Z 0%R _
                     at_the_park_distance at_the_park_in_range eq_refl) _ _);
      discriminate. }
  assert (S : snd (run (checkin alice at_the_park 739000%Z 905%Z) alice_checked_in)
              = inr (AlreadyCheckedIn 900%Z))
    by (rewrite R; reflexivity).
  split; [exact alice_checked_in_unique |].
  split; [exact S |].
  apply (proj2 (proj1 already_checked_in_carries_time
                  alice_checked_in alice at_the_park 739000%Z 905%Z 900%Z
                  alice_checked_in_unique (or_introl S))).
Defined.

(* ================================================================== *)
(** * More on the check-in routes *)
(* ================================================================== *)


Lemma alice_checks_in :
  snd (run (checkin alice at_the_park 739000%Z 900%Z) only_alice)
  = inr (CheckedIn 900%Z (round1 0)).
Proof.
  unfold at_the_park.
  rewrite (@checkin_run only_alice alice SCIENCE_PARK_LAT SCIENCE_PARK_LNG
             (Some "jpeg"%string) 739000%Z 900%Z 0%R at_the_park_distance);
    try discriminate.
  destruct (too_far 0) as [Hfar | _]; [| reflexivity].
  exfalso. unfold ALLOWED_RADIUS_METERS in Hfar. lra.
Qed.



(** What the success of a check-in tells. *)
Lemma checkin_succeeded :
  forall db user data today now t d,
    snd (run (checkin user data today now) db) = inr (CheckedIn t d) ->
    t = now /\
    first_by_user_date db (User.id user) today = None /\
    exists j lat lng distance,
      data = Some j /\
      Json.latitude j = Some lat /\ Json.longitude j = Some lng /\
      photo_given j = true /\
      haversine_distance lat lng SCIENCE_PARK_LAT SCIENCE_PARK_LNG
      = inr distance /\
      (distance <= 10000)%R /\ d = round1 distance /\
      fst (run (checkin user data today now) db) =
      {| users := users db;
         checkins :=
           checkins db
           ++ [ {| CheckIn.id := next_id db;
                   CheckIn.user_id := User.id user;
                   CheckIn.check_in_date := today;
                   CheckIn.check_in_time := now;
                   CheckIn.latitude := lat;
                   CheckIn.longitude := lng;
                   CheckIn.photo_data := Json.photo j |} ] |}.
Proof.
  intros db user data today now t d H. unfold checkin in *.
  destruct data as [j |]; [| discriminate].
  destruct (Json.latitude j) as [lat |] eqn:Elat; [| discriminate].
  destruct (Json.longitude j) as [lng |] eqn:Elng; [| discriminate].
  destruct (photo_given j) eqn:G; [| discriminate]. cbn [negb] in *.
  destruct (haversine_distance lat lng SCIENCE_PARK_LAT SCIENCE_PARK_LNG)
    as [e | distance] eqn:E; [discriminate |].
  destruct (too_far distance) as [| Hnear]; [discriminate |].
  cbn [run] in *.
  destruct (first_by_user_date db (User.id user) today) eqn:F;
    [discriminate |].
  cbn [run] in *.
  fold (new_checkin user lat lng (Json.photo j) today now) in *.
  rewrite (add_commit_after_first_none _ _ lat lng (Json.photo j) _ now F) in *.
  simpl in H. inversion H; subst.
  split; [reflexivity |]. split; [reflexivity |].
  exists j, lat, lng, distance.
  split; [reflexivity |]. split; [exact Elat |]. split; [exact Elng |].
  split; [exact G |]. split; [exact E |].
  split; [unfold ALLOWED_RADIUS_METERS in Hnear; lra |].
  split; reflexivity.
Qed.

Lemma fold_max_ge id ids :
  (id <= fold_right Z.max id ids)%Z /\
  forall x, In x ids -> (x <= fold_right Z.max id ids)%Z.
Proof.
  induction ids as [| y ids [IH1 IH2]]; simpl.
  - split; [lia | intros x []].
  - split; [lia |]. intros x [<- | Hx]; [lia |].
    specialize (IH2 x Hx). lia.
Qed.

(** The key of the next row is larger than every key of the table. *)
Lemma next_id_fresh db r :
  In r (checkins db) -> (CheckIn.id r < next_id db)%Z.
Proof.
  intros Hin. apply (in_map CheckIn.id) in Hin. unfold next_id.
  destruct (map CheckIn.id (checkins db)) as [| id ids]; [contradiction |].
  destruct (fold_max_ge id ids) as [H1 H2].
  destruct Hin as [<- | Hin]; [lia |]. specialize (H2 _ Hin). lia.
Qed.

(** X2: A check-in succeeds only for a request with both coordinates and a
    photo that is not empty, for which the distance computed is not greater
    than the radius, of a user without a check-in for the date; the time it
    reports is the time of the request, and the table grows by one row that
    holds the user, the date, the time, the coordinates and the photo
    submitted, under a primary key that no row of the table has. *)
Theorem checkin_success :
  forall db user data today now t d,
    snd (run (checkin user data today now) db) = inr (CheckedIn t d) ->
    t = now /\
    first_by_user_date db (User.id user) today = None /\
    exists j lat lng distance id,
      data = Some j /\
      Json.latitude j = Some lat /\ Json.longitude j = Some lng /\
      photo_given j = true /\
      haversine_distance lat lng SCIENCE_PARK_LAT SCIENCE_PARK_LNG
      = inr distance /\
      ~ (distance > IZR ALLOWED_RADIUS_METERS)%R /\
      d = round1 distance /\
      (forall r, In r (checkins db) -> CheckIn.id r <> id) /\
      fst (run (checkin user data today now) db) =
      {| users := users db;
         checkins :=
           checkins db
           ++ [ {| CheckIn.id := id;
                   CheckIn.user_id := User.id user;
                   CheckIn.check_in_date := today;
                   CheckIn.check_in_time := now;
                   CheckIn.latitude := lat;
                   CheckIn.longitude := lng;
                   CheckIn.photo_data := Json.photo j |} ] |}.
Proof.
  intros db user data today now t d H. unfold checkin in *.
  destruct data as [j |]; [| discriminate].
  destruct (Json.latitude j) as [lat |] eqn:Elat; [| discriminate].
  destruct (Json.longitude j) as [lng |] eqn:Elng; [| discriminate].
  destruct (photo_given j) eqn:G; [| discriminate]. cbn [negb] in *.
  destruct (haversine_distance lat lng SCIENCE_PARK_LAT SCIENCE_PARK_LNG)
    as [e | distance] eqn:E; [discriminate |].
  destruct (too_far distance) as [| Hnear]; [discriminate |].
  cbn [run] in *.
  destruct (first_by_user_date db (User.id user) today) eqn:F;
    [discriminate |].
  cbn [run] in *.
  fold (new_checkin user lat lng (Json.photo j) today now) in *.
  rewrite (add_commit_after_first_none _ _ lat lng (Json.photo j) _ now F) in *.
  simpl in H. inversion H; subst.
  split; [reflexivity |]. split; [reflexivity |].
  exists j, lat, lng, distance, (next_id db).
  split; [reflexivity |]. split; [exact Elat |]. split; [exact Elng |].
  split; [exact G |]. split; [exact E |]. split; [exact Hnear |].
  split; [reflexivity |].
  split; [| reflexivity].
  intros r Hr. pose proof (next_id_fresh db r Hr). lia.
Qed.

Lemma checkin_success_witness :
  snd (run (checkin alice at_the_park 739000%Z 900%Z) only_alice)
  = inr (CheckedIn 900%Z (round1 0)) /\
  first_by_user_date only_alice (User.id alice) 739000%Z = None.
Proof.
  pose proof alice_checks_in as S.
  split; [exact S |].
  exact (proj1 (proj2 (checkin_success _ _ _ _ _ S))).
Defined.

Lemma find_app_false (A : Type) (f : A -> bool) l x :
  f x = false -> find f (l ++ [x]) = find f l.
Proof.
  intros Hx. induction l as [| y l IH]; simpl.
  - rewrite Hx. reflexivity.
  - destruct (f y); [reflexivity | exact IH].
Qed.

Lemma by_user_date_new_checkin user lat lng photo today now id :
  by_user_date (User.id user) today
    (new_checkin user lat lng photo today now id) = true.
Proof.
  apply by_user_date_true. split; reflexivity.
Qed.

Lemma first_after_append db user lat lng photo today now :
  first_by_user_date db (User.id user) today = None ->
  first_by_user_date
    {| users := users db;
       checkins := checkins db
                   ++ [new_checkin user lat lng photo today now (next_id db)] |}
    (User.id user) today
  = Some (new_checkin user lat lng photo today now (next_id db)).
Proof.
  intros F. unfold first_by_user_date in *. cbn [checkins].
  rewrite (find_app_none _ _ _ F). cbn [find].
  rewrite by_user_date_new_checkin. reflexivity.
Qed.

(** X3: After a check-in has succeeded, the status of that user for that date
    is "checked in" at the time of the request, and both a verification
    and a second check-in with the same submission are answered "already
    checked in" at that time, without a second row. *)
Theorem checkin_then_status :
  forall db user data today now t d,
    snd (run (checkin user data today now) db) = inr (CheckedIn t d) ->
    let db' := fst (run (checkin user data today now) db) in
    run (get_status user today) db' = (db', inr (Status true (Some now))) /\
    run (verify_location user data today) db'
    = (db', inr (AlreadyCheckedIn now)) /\
    (forall later,
        run (checkin user data today later) db'
        = (db', inr (AlreadyCheckedIn now))).
Proof.
  intros db user data today now t d H.
  destruct (checkin_succeeded _ _ _ _ _ H)
    as [_ [F [j [lat [lng [distance [-> [Elat [Elng [G [E [Hd [_ Hdb]]]]]]]]]]]]].
  cbv zeta. rewrite Hdb.
  fold (new_checkin user lat lng (Json.photo j) today now (next_id db)).
  pose proof (@first_after_append db user lat lng (Json.photo j) today now F)
    as F'.
  set (db' := {| users := users db;
                 checkins := checkins db
                             ++ [new_checkin user lat lng (Json.photo j)
                                             today now (next_id db)] |}) in *.
  assert (Hnear : forall A (x y : A), (if too_far distance then x else y) = y).
  { intros A x y. destruct (too_far distance) as [Hfar | _]; [| reflexivity].
    unfold ALLOWED_RADIUS_METERS in Hfar. lra. }
  split; [| split].
  - unfold get_status. cbn [run]. rewrite F'. reflexivity.
  - unfold verify_location. rewrite Elat, Elng, E, Hnear.
    cbn [run]. rewrite F'. reflexivity.
  - intros later. unfold checkin. rewrite Elat, Elng, G, E. cbn [negb].
    rewrite Hnear. cbn [run]. rewrite F'. reflexivity.
Qed.

Lemma checkin_then_status_witness :
  snd (run (checkin alice at_the_park 739000%Z 900%Z) only_alice)
  = inr (CheckedIn 900%Z (round1 0)) /\
  run (get_status alice 739000%Z)
      (fst (run (checkin alice at_the_park 739000%Z 900%Z) only_alice))
  = (fst (run (checkin alice at_the_park 739000%Z 900%Z) only_alice),
     inr (Status true (Some 900%Z))).
Proof.
  pose proof alice_checks_in as S.
  split; [exact S |].
  exact (proj1 (checkin_then_status _ _ _ _ _ S)).
Defined.

(** X4: A check-in request, whatever its outcome, changes nothing for another
    user or another date: the row looked up for them and their status are
    as before. *)
Theorem checkin_leaves_others :
  forall db user data today now other day,
    User.id other <> User.id user \/ day <> today ->
    let db' := fst (run (checkin user data today now) db) in
    first_by_user_date db' (User.id other) day
    = first_by_user_date db (User.id other) day /\
    snd (run (get_status other day) db') = snd (run (get_status other day) db).
Proof.
  intros db user data today now other day Hne. cbv zeta.
  assert (F : first_by_user_date
                (fst (run (checkin user data today now) db)) (User.id other) day
              = first_by_user_date db (User.id other) day).
  { destruct (checkin_db db user data today now)
      as [-> | [lat [lng [photo [_ ->]]]]]; [reflexivity |].
    unfold first_by_user_date. cbn [checkins]. apply find_app_false.
    destruct (by_user_date (User.id other) day _) eqn:K; [| reflexivity].
    apply by_user_date_true in K as [K1 K2]. simpl in K1, K2.
    destruct Hne as [Hne | Hne]; congruence. }
  split; [exact F |].
  unfold get_status. cbn [run]. rewrite F.
  destruct (first_by_user_date db (User.id other) day); reflexivity.
Qed.

Lemma checkin_leaves_others_witness :
  (User.id bob <> User.id alice \/ 739000%Z <> 739000%Z) /\
  snd (run (get_status bob 739000%Z)
           (fst (run (checkin alice at_the_park 739000%Z 900%Z) only_alice)))
  = snd (run (get_status bob 739000%Z) only_alice).
Proof.
  assert (H : User.id bob <> User.id alice \/ 739000%Z <> 739000%Z)
    by (left; discriminate).
  split; [exact H |].
  exact (proj2 (@checkin_leaves_others only_alice alice at_the_park
                  739000%Z 900%Z bob 739000%Z H)).
Defined.

(** X5: The checks come in a fixed order: coordinates, then (for the
    check-in) the photo, then the distance, then the existing check-in.  So
    a request whose JSON body is [null], or is an object without
    ['latitude'] or without ['longitude'], is answered "missing
    coordinates" whatever else it holds; and a submission for which the
    distance computation returns a distance greater than the radius is
    answered "too far" even when the user has already checked in. *)
Theorem check_order :
  (forall db user data today now,
      match data with
      | None => True
      | Some j => Json.latitude j = None \/ Json.longitude j = None
      end ->
      run (verify_location user data today) db = (db, inr MissingCoordinates) /\
      run (checkin user data today now) db = (db, inr MissingCoordinates)) /\
  (forall db user lat lng photo today now distance,
      haversine_distance lat lng SCIENCE_PARK_LAT SCIENCE_PARK_LNG
      = inr distance ->
      (distance > 10000)%R ->
      run (verify_location user (submission lat lng photo) today) db
      = (db, inr (TooFar (round1 distance) 10000)) /\
      (photo <> None -> photo <> Some EmptyString ->
       run (checkin user (submission lat lng photo) today now) db
       = (db, inr (TooFar (round1 distance) 10000)))).
Proof.
  split.
  - intros db user data today now H. unfold verify_location, checkin.
    destruct data as [j |]; [| split; reflexivity].
    destruct H as [-> | H].
    + split; reflexivity.
    + rewrite H. destruct (Json.latitude j); split; reflexivity.
  - intros db user lat lng photo today now distance E Hd.
    assert (Hfar : forall A (x y : A), (if too_far distance then x else y) = x).
    { intros A x y. destruct (too_far distance) as [_ | Hnear]; [reflexivity |].
      unfold ALLOWED_RADIUS_METERS in Hnear. lra. }
    split.
    + rewrite (@verify_location_run db user lat lng photo today distance E).
      rewrite Hfar. reflexivity.
    + intros Hp1 Hp2.
      rewrite (@checkin_run db user lat lng photo today now distance E Hp1 Hp2).
      rewrite Hfar. reflexivity.
Qed.

Lemma check_order_witness :
  run (checkin alice
         (Some {| Json.latitude := None;
                  Json.longitude := Some SCIENCE_PARK_LNG;
                  Json.photo := None |}) 739000%Z 900%Z) alice_checked_in
  = (alice_checked_in, inr MissingCoordinates) /\
  run (checkin alice far_away 739000%Z 905%Z) alice_checked_in
  = (alice_checked_in,
     inr (TooFar (round1 (EARTH_RADIUS * (PI / 2))) 10000)).
Proof.
  split.
  - refine (proj2 (proj1 check_order alice_checked_in alice _ 739000%Z 900%Z _)).
    left. reflexivity.
  - refine (proj2 (proj2 check_order alice_checked_in alice _ _
                     (Some "jpeg"%string) 739000%Z 905%Z _
                     far_away_distance quarter_meridian_too_far) _ _);
      discriminate.
Defined.

(* ================================================================== *)
(** * More on the leaderboard routes *)
(* ================================================================== *)

Lemma run_read_only_eq (A : Type) (p : Prog A) db :
  read_only p -> run p db = (db, snd (run p db)).
Proof.
  intros H. rewrite <- (run_read_only H db) at 2.
  destruct (run p db); reflexivity.
Qed.

(** The loop of the leaderboard looks at the users only. *)
Lemma leaderboard_entries_users db db' rows :
  users db = users db' ->
  forall i,
    snd (run (leaderboard_entries i rows) db')
    = snd (run (leaderboard_entries i rows) db).
Proof.
  intros U. induction rows as [| c rest IH]; intros i; [reflexivity |].
  cbn [leaderboard_entries run].
  assert (G : user_get db' (CheckIn.user_id c) = user_get db (CheckIn.user_id c))
    by (unfold user_get; rewrite U; reflexivity).
  rewrite G. destruct (user_get db (CheckIn.user_id c)) as [user |];
    [| reflexivity].
  rewrite !run_bind.
  rewrite (run_read_only_eq db' (leaderboard_entries_read_only rest (S i))).
  rewrite (run_read_only_eq db (leaderboard_entries_read_only rest (S i))).
  rewrite IH.
  destruct (snd (run (leaderboard_entries (S i) rest) db)); reflexivity.
Qed.

Lemma get_leaderboard_snd db today :
  snd (run (get_leaderboard today) db) =
  match snd (run (leaderboard_entries 0 (all_by_date db today)) db) with
  | inr lb => inr (Leaderboard today lb)
  | inl e => inl e
  end.
Proof.
  rewrite get_leaderboard_run.
  destruct (run (leaderboard_entries 0 (all_by_date db today)) db)
    as [db' [e | lb]]; reflexivity.
Qed.

(** X7: A check-in request for one date, whatever its outcome, leaves the
    leaderboard of every other date as it was. *)
Theorem checkin_leaves_other_leaderboards :
  forall db user data today now day,
    day <> today ->
    snd (run (get_leaderboard day)
             (fst (run (checkin user data today now) db)))
    = snd (run (get_leaderboard day) db).
Proof.
  intros db user data today now day Hne.
  destruct (checkin_db db user data today now)
    as [-> | [lat [lng [photo [_ ->]]]]]; [reflexivity |].
  set (db' := {| users := users db;
                 checkins := checkins db
                             ++ [new_checkin user lat lng photo today now
                                             (next_id db)] |}).
  assert (Hrows : all_by_date db' day = all_by_date db day).
  { unfold all_by_date, db'. cbn [checkins]. rewrite filter_app. cbn [filter].
    unfold by_date at 2. cbn [new_checkin CheckIn.check_in_date].
    destruct (Z.eqb_spec today day) as [-> | _]; [congruence |].
    rewrite app_nil_r. reflexivity. }
  rewrite !get_leaderboard_snd, Hrows.
  rewrite (@leaderboard_entries_users db db' (all_by_date db day) eq_refl 0).
  reflexivity.
Qed.

Lemma checkin_leaves_other_leaderboards_witness :
  739001%Z <> 739000%Z /\
  snd (run (get_leaderboard 739001%Z)
           (fst (run (checkin alice at_the_park 739000%Z 900%Z) only_alice)))
  = snd (run (get_leaderboard 739001%Z) only_alice).
Proof.
  assert (H : 739001%Z <> 739000%Z) by discriminate.
  split; [exact H |].
  exact (@checkin_leaves_other_leaderboards only_alice alice at_the_park
           739000%Z 900%Z 739001%Z H).
Defined.

Lemma Forall2_In_l (A B : Type) (R : A -> B -> Prop) l l' x :
  Forall2 R l l' -> In x l -> exists y, In y l' /\ R x y.
Proof.
  induction 1 as [| a b l l' Hab _ IH]; intros Hin; [contradiction |].
  destruct Hin as [<- | Hin].
  - exists b. split; [left; reflexivity | exact Hab].
  - destruct (IH Hin) as [y [Hy Hr]]. exists y. split; [right |]; assumption.
Qed.

(** X6: After a check-in has succeeded, the leaderboard of the date has one
    entry more than before, and shows the user by name and picture with
    the time of the request and the submitted photo. *)
Theorem checkin_then_leaderboard :
  forall db user data today now t d,
    users_exist db ->
    user_get db (User.id user) = Some user ->
    snd (run (checkin user data today now) db) = inr (CheckedIn t d) ->
    let db' := fst (run (checkin user data today now) db) in
    exists before after,
      run (get_leaderboard today) db = (db, inr (Leaderboard today before)) /\
      run (get_leaderboard today) db' = (db', inr (Leaderboard today after)) /\
      List.length after = S (List.length before) /\
      exists e,
        In e after /\
        Entry.name e = User.name user /\
        Entry.picture e = User.picture user /\
        Entry.check_in_time e = now /\
        Entry.photo e = match data with
                        | Some j => Json.photo j
                        | None => None
                        end.
Proof.
  intros db user data today now t d Hfk Hu H.
  destruct (checkin_succeeded _ _ _ _ _ H)
    as [_ [F [j [lat [lng [distance [-> [_ [_ [_ [_ [_ [_ Hdb]]]]]]]]]]]]].
  cbv zeta. rewrite Hdb.
  fold (new_checkin user lat lng (Json.photo j) today now (next_id db)).
  set (row := new_checkin user lat lng (Json.photo j) today now (next_id db)).
  set (db' := {| users := users db; checkins := checkins db ++ [row] |}).
  assert (Hfk' : users_exist db').
  { intros r Hr. unfold db' in Hr. cbn [checkins] in Hr.
    apply in_app_or in Hr as [Hr | [<- | []]].
    - exact (Hfk r Hr).
    - unfold user_get, db', row. cbn [users new_checkin CheckIn.user_id].
      fold (user_get db (User.id user)). rewrite Hu. discriminate. }
  destruct (@leaderboard_entries_run db (all_by_date db today)
              (fun r Hr => Hfk r (proj1 (all_by_date_In db today r Hr))) 0%nat)
    as [before [Hrun [Hshow _]]].
  destruct (@leaderboard_entries_run db' (all_by_date db' today)
              (fun r Hr => Hfk' r (proj1 (all_by_date_In db' today r Hr))) 0%nat)
    as [after [Hrun' [Hshow' _]]].
  exists before, after.
  split; [rewrite get_leaderboard_run, Hrun; reflexivity |].
  split; [rewrite get_leaderboard_run, Hrun'; reflexivity |].
  assert (Hfilter : filter (by_date today) (checkins db')
                    = filter (by_date today) (checkins db) ++ [row]).
  { unfold db'. cbn [checkins]. rewrite filter_app. cbn [filter].
    unfold by_date at 2, row. cbn [new_checkin CheckIn.check_in_date].
    rewrite Z.eqb_refl. reflexivity. }
  split.
  - rewrite <- (Forall2_length Hshow), <- (Forall2_length Hshow').
    rewrite (Permutation_length (all_by_date_perm db' today)).
    rewrite (Permutation_length (all_by_date_perm db today)).
    rewrite Hfilter, length_app. simpl. lia.
  - assert (Hin : In row (all_by_date db' today)).
    { apply (Permutation_in _ (Permutation_sym (all_by_date_perm db' today))).
      rewrite Hfilter. apply in_or_app. right. left. reflexivity. }
    destruct (@Forall2_In_l _ _ _ _ _ row Hshow' Hin)
      as [e [He [u [Hget [Hname [Hpic [Htime Hphoto]]]]]]].
    assert (Eu : u = user).
    { unfold user_get, db', row in Hget.
      cbn [users new_checkin CheckIn.user_id] in Hget.
      fold (user_get db (User.id user)) in Hget. congruence. }
    subst u. exists e. repeat split; assumption.
Qed.

Lemma checkin_then_leaderboard_witness :
  users_exist only_alice /\
  user_get only_alice (User.id alice) = Some alice /\
  snd (run (checkin alice at_the_park 739000%Z 900%Z) only_alice)
  = inr (CheckedIn 900%Z (round1 0)) /\
  exists before after,
    run (get_leaderboard 739000%Z) only_alice
    = (only_alice, inr (Leaderboard 739000%Z before)) /\
    run (get_leaderboard 739000%Z)
        (fst (run (checkin alice at_the_park 739000%Z 900%Z) only_alice))
    = (fst (run (checkin alice at_the_park 739000%Z 900%Z) only_alice),
       inr (Leaderboard 739000%Z after)) /\
    List.length after = S (List.length before).
Proof.
  assert (Hfk : users_exist only_alice) by (intros r []).
  assert (Hu : user_get only_alice (User.id alice) = Some alice) by reflexivity.
  pose proof alice_checks_in as S.
  split; [exact Hfk |]. split; [exact Hu |]. split; [exact S |].
  destruct (@checkin_then_leaderboard only_alice alice at_the_park
              739000%Z 900%Z _ _ Hfk Hu S)
    as [before [after [H1 [H2 [H3 _]]]]].
  exists before, after. auto.
Defined.

(** All the dates of the table, most recent first, before the limit. *)
Lemma all_dates_desc_sorted db :
  StronglySorted Z.gt
    (sort_by date_desc
       (nodup Z.eq_dec (map CheckIn.check_in_date (checkins db)))).
Proof.
  set (ds := nodup Z.eq_dec (map CheckIn.check_in_date (checkins db))).
  assert (Hnd : NoDup (sort_by date_desc ds)).
  { eapply Permutation_NoDup;
      [apply Permutation_sym, sort_by_perm | apply NoDup_nodup]. }
  assert (Hs : StronglySorted (fun a b => date_desc a b = true)
                 (sort_by date_desc ds)).
  { apply sort_by_sorted; unfold date_desc.
    - intros x y. rewrite !Z.leb_le. lia.
    - intros x y z. rewrite !Z.leb_le. lia. }
  induction Hs as [| x l Hs IH Hx]; [constructor |].
  inversion Hnd as [| ? ? Hnotin Hnd']; subst.
  constructor; [apply IH; exact Hnd' |].
  rewrite Forall_forall in *. intros y Hy.
  specialize (Hx y Hy). unfold date_desc in Hx. apply Z.leb_le in Hx.
  assert (x <> y) by (intros ->; contradiction). lia.
Qed.

Lemma StronglySorted_app_lr (A : Type) (R : A -> A -> Prop) l1 l2 :
  StronglySorted R (l1 ++ l2) ->
  forall x y, In x l1 -> In y l2 -> R x y.
Proof.
  induction l1 as [| a l1 IH]; intros Hs x y Hx Hy; [contradiction |].
  simpl in Hs. inversion Hs as [| ? ? Hs' Ha]; subst.
  destruct Hx as [<- | Hx].
  - rewrite Forall_forall in Ha. apply Ha. apply in_or_app. right. exact Hy.
  - eapply IH; eauto.
Qed.

(** The limit keeps the most recent dates: a date of the table that the
    window leaves out is older than all the dates it holds, of which there
    are then [n]. *)
Lemma distinct_dates_desc_recent db n d :
  In d (map CheckIn.check_in_date (checkins db)) ->
  In d (distinct_dates_desc db n) \/
  (List.length (distinct_dates_desc db n) = n /\
   forall d', In d' (distinct_dates_desc db n) -> (d < d')%Z).
Proof.
  intros Hd. unfold distinct_dates_desc.
  set (L := sort_by date_desc
              (nodup Z.eq_dec (map CheckIn.check_in_date (checkins db)))).
  assert (HL : In d L).
  { apply (Permutation_in _ (Permutation_sym (sort_by_perm date_desc _))).
    apply nodup_In. exact Hd. }
  rewrite <- (firstn_skipn n L) in HL.
  apply in_app_or in HL as [HL | HL]; [left; exact HL | right].
  split.
  - rewrite length_firstn. apply Nat.min_l.
    destruct (Nat.le_gt_cases n (List.length L)) as [Hle | Hgt]; [exact Hle |].
    rewrite skipn_all2 in HL by lia. contradiction.
  - intros d' Hd'.
    pose proof (all_dates_desc_sorted db) as Hs. fold L in Hs.
    rewrite <- (firstn_skipn n L) in Hs.
    pose proof (@StronglySorted_app_lr _ _ _ _ Hs d' d Hd' HL). lia.
Qed.

(** X8: The history is complete up to its limit: every date that has a
    check-in has its day in the history, unless the history is full with
    30 days that are all more recent. *)
Theorem history_most_recent :
  forall db,
    users_exist db ->
    exists history,
      run get_history db = (db, inr (History history)) /\
      forall d,
        In d (map CheckIn.check_in_date (checkins db)) ->
        In d (map Day.date history) \/
        (List.length history = 30%nat /\
         forall day, In day history -> (d < Day.date day)%Z).
Proof.
  intros db Hfk.
  destruct (history_days_run Hfk (distinct_dates_desc db 30))
    as [history [Hrun [Hdates _]]].
  exists history.
  split; [unfold get_history; cbn [run]; rewrite run_bind, Hrun; reflexivity |].
  intros d Hd.
  destruct (distinct_dates_desc_recent db 30 d Hd) as [Hin | [Hlen Hold]].
  - left. rewrite Hdates. exact Hin.
  - right. split.
    + rewrite <- (length_map Day.date), Hdates. exact Hlen.
    + intros day Hday. apply Hold. rewrite <- Hdates.
      apply in_map. exact Hday.
Qed.

Lemma history_most_recent_witness :
  users_exist both_checked_in /\
  exists history,
    run get_history both_checked_in = (both_checked_in, inr (History history)) /\
    (In 739000%Z (map Day.date history) \/
     (List.length history = 30%nat /\
      forall day, In day history -> (739000 < Day.date day)%Z)).
Proof.
  split; [exact both_checked_in_users_exist |].
  destruct (history_most_recent both_checked_in_users_exist)
    as [history [Hrun Hall]].
  exists history. split; [exact Hrun |].
  apply Hall. left. reflexivity.
Defined.

(** X9: No day of the history is empty: a day has as many entries as the table
    has check-ins for its date, and at least one. *)
Theorem history_days_not_empty :
  forall db,
    users_exist db ->
    exists history,
      run get_history db = (db, inr (History history)) /\
      forall day,
        In day history ->
        List.length (Day.entries day)
        = List.length (filter (by_date (Day.date day)) (checkins db)) /\
        (1 <= List.length (Day.entries day))%nat.
Proof.
  intros db Hfk.
  destruct (history_days_run Hfk (distinct_dates_desc db 30))
    as [history [Hrun [Hdates Hdays]]].
  exists history.
  split; [unfold get_history; cbn [run]; rewrite run_bind, Hrun; reflexivity |].
  intros day Hday.
  rewrite Forall_forall in Hdays.
  destruct (Hdays day Hday) as [lb [Hlb Hentries]].
  destruct (@leaderboard_entries_run db (all_by_date db (Day.date day))
              (fun r Hr => Hfk r (proj1 (all_by_date_In db (Day.date day) r Hr)))
              0%nat)
    as [lb' [Hrun' [Hshow _]]].
  rewrite get_leaderboard_run, Hrun' in Hlb.
  assert (lb' = lb) by congruence. subst lb'.
  assert (Hlen : List.length (Day.entries day)
                 = List.length (filter (by_date (Day.date day)) (checkins db))).
  { rewrite Hentries, length_map, <- (Forall2_length Hshow).
    apply Permutation_length, all_by_date_perm. }
  split; [exact Hlen |].
  rewrite Hlen.
  assert (Hd : In (Day.date day) (map CheckIn.check_in_date (checkins db))).
  { apply (distinct_dates_desc_In db 30). rewrite <- Hdates.
    apply in_map. exact Hday. }
  apply in_map_iff in Hd as [r [Hr Hin]].
  assert (Hf : In r (filter (by_date (Day.date day)) (checkins db))).
  { apply filter_In. split; [exact Hin |]. apply Z.eqb_eq. exact Hr. }
  destruct (filter (by_date (Day.date day)) (checkins db));
    [contradiction | simpl; lia].
Qed.

Lemma history_days_not_empty_witness :
  users_exist both_checked_in /\
  exists history,
    run get_history both_checked_in = (both_checked_in, inr (History history)) /\
    forall day, In day history -> (1 <= List.length (Day.entries day))%nat.
Proof.
  split; [exact both_checked_in_users_exist |].
  destruct (history_days_not_empty both_checked_in_users_exist)
    as [history [Hrun Hall]].
  exists history. split; [exact Hrun |].
  intros day Hday. exact (proj2 (Hall day Hday)).
Defined.

(* ================================================================== *)
(** * More on check-ins served together *)
(* ================================================================== *)

Lemma attempt_request_query a :
  valid_attempt a -> attempt_request a = attempt_query a.
Proof.
  intros [E [Hd [Hp1 Hp2]]]. unfold attempt_request, attempt_query.
  apply checkin_in_range; assumption.
Qed.

Lemma first_none_exists db uid d :
  first_by_user_date db uid d = None ->
  existsb (by_user_date uid d) (checkins db) = false.
Proof. intros H. apply find_none_existsb. exact H. Qed.

(** One operation of an attempt that finds no row of its user and date. *)
Lemma pending_step a db p :
  pending a p ->
  first_by_user_date db (User.id (at_user a)) (at_today a) = None ->
  (p = attempt_query a /\ exec_op db p = (db, attempt_commit a)) \/
  (p = attempt_commit a /\
   exec_op db p =
   ({| users := users db;
       checkins := checkins db ++ [attempt_row a (next_id db)] |},
    attempt_done a)).
Proof.
  intros [|] F.
  - left. split; [reflexivity |]. unfold attempt_query. cbn [exec_op].
    rewrite F. reflexivity.
  - right. split; [reflexivity |].
    unfold attempt_commit, after_first. cbn [exec_op].
    rewrite (add_commit_after_first_none _ _ (at_lat a) (at_lng a) (at_photo a)
               _ (at_now a) F).
    reflexivity.
Qed.

(** One operation of an attempt that finds the row of another attempt. *)
Lemma beaten_step a t db p row :
  beaten a t p ->
  first_by_user_date db (User.id (at_user a)) (at_today a) = Some row ->
  CheckIn.check_in_time row = t ->
  fst (exec_op db p) = db /\ beaten a t (snd (exec_op db p)).
Proof.
  intros H F Ht. destruct H as [p [|] | |].
  - unfold attempt_query. cbn [exec_op]. rewrite F. cbn [after_first fst snd].
    rewrite Ht. split; [reflexivity | apply beaten_answered].
  - unfold attempt_commit, after_first. cbn [exec_op]. unfold add_commit.
    cbn [new_checkin CheckIn.user_id CheckIn.check_in_date].
    assert (X : existsb (by_user_date (User.id (at_user a)) (at_today a))
                  (checkins db) = true).
    { apply find_some_existsb. unfold first_by_user_date in F. congruence. }
    rewrite X. split; [reflexivity | apply beaten_refused].
  - split; [reflexivity | apply beaten_answered].
  - split; [reflexivity | apply beaten_refused].
Qed.

Lemma race_step_first a1 a2 db0 db p1 p2 :
  User.id (at_user a1) = User.id (at_user a2) -> at_today a1 = at_today a2 ->
  first_by_user_date db0 (User.id (at_user a1)) (at_today a1) = None ->
  race a1 a2 db0 db p1 p2 ->
  race a1 a2 db0 (fst (exec_op db p1)) (snd (exec_op db p1)) p2.
Proof.
  intros Hu Ht F0 H. destruct H as [p1 p2 -> H1 H2 | p2 -> H2 | p1 -> H1].
  - destruct (pending_step db0 H1 F0) as [[-> ->] | [-> ->]]; cbn [fst snd].
    + apply race_open; [reflexivity | constructor | exact H2].
    + apply race_first; [reflexivity | constructor; exact H2].
  - cbn [attempt_done exec_op fst snd]. apply race_first; [reflexivity | exact H2].
  - assert (F : first_by_user_date
                  {| users := users db0;
                     checkins := checkins db0 ++ [attempt_row a2 (next_id db0)] |}
                  (User.id (at_user a1)) (at_today a1)
                = Some (attempt_row a2 (next_id db0))).
    { rewrite Hu, Ht in *. apply first_after_append. exact F0. }
    destruct (@beaten_step a1 (at_now a2) _ p1 _ H1 F eq_refl) as [-> Hb].
    apply race_second; [reflexivity | exact Hb].
Qed.

Lemma race_step_second a1 a2 db0 db p1 p2 :
  User.id (at_user a1) = User.id (at_user a2) -> at_today a1 = at_today a2 ->
  first_by_user_date db0 (User.id (at_user a1)) (at_today a1) = None ->
  race a1 a2 db0 db p1 p2 ->
  race a1 a2 db0 (fst (exec_op db p2)) p1 (snd (exec_op db p2)).
Proof.
  intros Hu Ht F0 H. destruct H as [p1 p2 -> H1 H2 | p2 -> H2 | p1 -> H1].
  - assert (F0' : first_by_user_date db0 (User.id (at_user a2)) (at_today a2)
                  = None) by (rewrite <- Hu, <- Ht; exact F0).
    destruct (pending_step db0 H2 F0') as [[-> ->] | [-> ->]]; cbn [fst snd].
    + apply race_open; [reflexivity | exact H1 | constructor].
    + apply race_second; [reflexivity | constructor; exact H1].
  - assert (F : first_by_user_date
                  {| users := users db0;
                     checkins := checkins db0 ++ [attempt_row a1 (next_id db0)] |}
                  (User.id (at_user a2)) (at_today a2)
                = Some (attempt_row a1 (next_id db0))).
    { rewrite <- Hu, <- Ht in *. apply first_after_append. exact F0. }
    destruct (@beaten_step a2 (at_now a1) _ p2 _ H2 F eq_refl) as [-> Hb].
    apply race_first; [reflexivity | exact Hb].
  - cbn [attempt_done exec_op fst snd].
    apply race_second; [reflexivity | exact H1].
Qed.

Lemma race_interleave a1 a2 db0 sched :
  User.id (at_user a1) = User.id (at_user a2) -> at_today a1 = at_today a2 ->
  first_by_user_date db0 (User.id (at_user a1)) (at_today a1) = None ->
  forall db p1 p2,
    race a1 a2 db0 db p1 p2 ->
    race a1 a2 db0 (fst (interleave sched db p1 p2))
         (fst (snd (interleave sched db p1 p2)))
         (snd (snd (interleave sched db p1 p2))).
Proof.
  intros Hu Ht F0. induction sched as [| w s IH]; intros db p1 p2 H;
    [exact H |].
  cbn [interleave]. destruct w.
  - pose proof (race_step_first Hu Ht F0 H) as H'.
    destruct (exec_op db p1) as [db' p1']. apply IH. exact H'.
  - pose proof (race_step_second Hu Ht F0 H) as H'.
    destruct (exec_op db p2) as [db' p2']. apply IH. exact H'.
Qed.

Lemma pending_outcome a p : pending a p -> outcome p = None.
Proof. intros [|]; reflexivity. Qed.

(** X10: Two valid check-ins of one user for one date, in range, served
    together on a table without a check-in of that user for that date:
    whatever the schedule, once both have answered exactly one of them has
    succeeded, its row is the only one added, and the other one was
    answered "already checked in" at the winner's time or had its commit
    refused with [IntegrityError]. *)
Theorem same_user_race :
  forall a1 a2 db0 sched,
    valid_attempt a1 -> valid_attempt a2 ->
    User.id (at_user a1) = User.id (at_user a2) ->
    at_today a1 = at_today a2 ->
    first_by_user_date db0 (User.id (at_user a1)) (at_today a1) = None ->
    let r := interleave sched db0 (attempt_request a1) (attempt_request a2) in
    outcome (fst (snd r)) <> None ->
    outcome (snd (snd r)) <> None ->
    (fst (snd r) = Ret (CheckedIn (at_now a1) (round1 (at_distance a1))) /\
     (snd (snd r) = Ret (AlreadyCheckedIn (at_now a1)) \/
      snd (snd r) = Raise IntegrityError) /\
     checkins (fst r) = checkins db0 ++ [attempt_row a1 (next_id db0)]) \/
    (snd (snd r) = Ret (CheckedIn (at_now a2) (round1 (at_distance a2))) /\
     (fst (snd r) = Ret (AlreadyCheckedIn (at_now a2)) \/
      fst (snd r) = Raise IntegrityError) /\
     checkins (fst r) = checkins db0 ++ [attempt_row a2 (next_id db0)]).
Proof.
  intros a1 a2 db0 sched V1 V2 Hu Ht F0. cbv zeta.
  rewrite (attempt_request_query V1), (attempt_request_query V2).
  assert (H0 : race a1 a2 db0 db0 (attempt_query a1) (attempt_query a2))
    by (apply race_open; [reflexivity | constructor | constructor]).
  pose proof (race_interleave sched Hu Ht F0 H0) as H.
  destruct (interleave sched db0 (attempt_query a1) (attempt_query a2))
    as [db [q1 q2]]. cbn [fst snd] in *.
  intros O1 O2.
  destruct H as [p1 p2 _ H1 _ | p2 -> H2 | p1 -> H1].
  - rewrite (pending_outcome H1) in O1. congruence.
  - left. split; [reflexivity |]. split; [| reflexivity].
    destruct H2 as [p2 H2 | |]; auto.
    rewrite (pending_outcome H2) in O2. congruence.
  - right. split; [reflexivity |]. split; [| reflexivity].
    destruct H1 as [p1 H1 | |]; auto.
    rewrite (pending_outcome H1) in O1. congruence.
Qed.

Lemma alice_at_900_valid : valid_attempt alice_at_900.
Proof.
  split; [exact at_the_park_distance |].
  split; [exact at_the_park_in_range |].
  split; discriminate.
Qed.

Lemma alice_at_905_valid : valid_attempt alice_at_905.
Proof.
  split; [exact at_the_park_distance |].
  split; [exact at_the_park_in_range |].
  split; discriminate.
Qed.

Lemma bob_at_905_valid : valid_attempt bob_at_905.
Proof.
  split; [exact at_the_park_distance |].
  split; [exact at_the_park_in_range |].
  split; discriminate.
Qed.

Lemma alice_twice_raced :
  interleave [W1; W2; W1; W2] only_alice
    (attempt_request alice_at_900) (attempt_request alice_at_905)
  = ({| users := [alice];
        checkins := [attempt_row alice_at_900 1] |},
     (Ret (CheckedIn 900%Z (round1 0)), Raise IntegrityError)).
Proof.
  exact (@race_lost_at_commit only_alice alice _ _ _ 739000%Z 900%Z 905%Z _
           at_the_park_distance at_the_park_in_range
           (proj1 (proj2 (proj2 alice_at_900_valid)))
           (proj2 (proj2 (proj2 alice_at_900_valid))) eq_refl).
Qed.

Lemma same_user_race_witness :
  valid_attempt alice_at_900 /\ valid_attempt alice_at_905 /\
  outcome (fst (snd (interleave [W1; W2; W1; W2] only_alice
                       (attempt_request alice_at_900)
                       (attempt_request alice_at_905)))) <> None /\
  outcome (snd (snd (interleave [W1; W2; W1; W2] only_alice
                       (attempt_request alice_at_900)
                       (attempt_request alice_at_905)))) <> None /\
  (List.length
     (checkins (fst (interleave [W1; W2; W1; W2] only_alice
                       (attempt_request alice_at_900)
                       (attempt_request alice_at_905)))) = 1)%nat.
Proof.
  assert (O1 : outcome (fst (snd (interleave [W1; W2; W1; W2] only_alice
                                    (attempt_request alice_at_900)
                                    (attempt_request alice_at_905)))) <> None)
    by (rewrite alice_twice_raced; discriminate).
  assert (O2 : outcome (snd (snd (interleave [W1; W2; W1; W2] only_alice
                                    (attempt_request alice_at_900)
                                    (attempt_request alice_at_905)))) <> None)
    by (rewrite alice_twice_raced; discriminate).
  split; [exact alice_at_900_valid |]. split; [exact alice_at_905_valid |].
  split; [exact O1 |]. split; [exact O2 |].
  destruct (@same_user_race alice_at_900 alice_at_905 only_alice
              [W1; W2; W1; W2] alice_at_900_valid alice_at_905_valid
              eq_refl eq_refl eq_refl O1 O2)
    as [[_ [_ ->]] | [_ [_ ->]]]; reflexivity.
Defined.

Lemma first_after_append_other db row uid d :
  by_user_date uid d row = false ->
  first_by_user_date
    {| users := users db; checkins := checkins db ++ [row] |} uid d
  = first_by_user_date db uid d.
Proof.
  intros H. unfold first_by_user_date. cbn [checkins].
  apply find_app_false. exact H.
Qed.

Lemma other_key a b id :
  User.id (at_user a) <> User.id (at_user b) \/ at_today a <> at_today b ->
  by_user_date (User.id (at_user b)) (at_today b) (attempt_row a id) = false.
Proof.
  intros Hne.
  destruct (by_user_date _ _ (attempt_row a id)) eqn:K; [| reflexivity].
  apply by_user_date_true in K as [K1 K2]. simpl in K1, K2.
  destruct Hne; congruence.
Qed.

(** One operation of an attempt served next to an attempt for another
    user or date. *)
Lemma unhindered_step a b db p q :
  User.id (at_user a) <> User.id (at_user b) \/ at_today a <> at_today b ->
  unhindered a db p -> unhindered b db q ->
  unhindered a (fst (exec_op db p)) (snd (exec_op db p)) /\
  unhindered b (fst (exec_op db p)) q.
Proof.
  intros Hne Ha Hb. destruct Ha as [p F Hp | id Hin].
  - destruct (pending_step db Hp F) as [[-> ->] | [-> ->]]; cbn [fst snd].
    + split; [| exact Hb]. apply unhindered_pending; [exact F | constructor].
    + split.
      * apply unhindered_done with (id := next_id db). cbn [checkins].
        apply in_or_app. right. left. reflexivity.
      * destruct Hb as [q Fq Hq | id Hin].
        -- apply unhindered_pending; [| exact Hq].
           rewrite first_after_append_other; [exact Fq |].
           apply other_key. exact Hne.
        -- apply unhindered_done with (id := id). cbn [checkins].
           apply in_or_app. left. exact Hin.
  - cbn [attempt_done exec_op fst snd]. split; [| exact Hb].
    apply unhindered_done with (id := id). exact Hin.
Qed.

Lemma unhindered_interleave a1 a2 sched :
  User.id (at_user a1) <> User.id (at_user a2) \/ at_today a1 <> at_today a2 ->
  forall db p1 p2,
    unhindered a1 db p1 -> unhindered a2 db p2 ->
    unhindered a1 (fst (interleave sched db p1 p2))
               (fst (snd (interleave sched db p1 p2))) /\
    unhindered a2 (fst (interleave sched db p1 p2))
               (snd (snd (interleave sched db p1 p2))).
Proof.
  intros Hne. induction sched as [| w s IH]; intros db p1 p2 H1 H2;
    [split; assumption |].
  cbn [interleave]. destruct w.
  - destruct (unhindered_step Hne H1 H2) as [H1' H2'].
    destruct (exec_op db p1) as [db' p1']. apply IH; assumption.
  - assert (Hne' : User.id (at_user a2) <> User.id (at_user a1)
                   \/ at_today a2 <> at_today a1)
      by (destruct Hne; [left | right]; congruence).
    destruct (unhindered_step Hne' H2 H1) as [H2' H1'].
    destruct (exec_op db p2) as [db' p2']. apply IH; assumption.
Qed.

Lemma unhindered_outcome a db p o :
  unhindered a db p -> outcome p = Some o ->
  o = inr (CheckedIn (at_now a) (round1 (at_distance a))) /\
  exists id, In (attempt_row a id) (checkins db).
Proof.
  intros [p' F Hp | id Hin] Ho.
  - rewrite (pending_outcome Hp) in Ho. discriminate.
  - simpl in Ho. inversion Ho. split; [reflexivity | exists id; exact Hin].
Qed.

(** X11: Valid check-ins in range for different users, or for different dates,
    do not get in each other's way: served together on a table where
    neither has a check-in yet, under every schedule the answer of either
    one, once it is there, is the success with its own time, and its row
    is in the table. *)
Theorem different_users_both_succeed :
  forall a1 a2 db0 sched,
    valid_attempt a1 -> valid_attempt a2 ->
    User.id (at_user a1) <> User.id (at_user a2) \/ at_today a1 <> at_today a2 ->
    first_by_user_date db0 (User.id (at_user a1)) (at_today a1) = None ->
    first_by_user_date db0 (User.id (at_user a2)) (at_today a2) = None ->
    let r := interleave sched db0 (attempt_request a1) (attempt_request a2) in
    (forall o,
        outcome (fst (snd r)) = Some o ->
        o = inr (CheckedIn (at_now a1) (round1 (at_distance a1))) /\
        exists id, In (attempt_row a1 id) (checkins (fst r))) /\
    (forall o,
        outcome (snd (snd r)) = Some o ->
        o = inr (CheckedIn (at_now a2) (round1 (at_distance a2))) /\
        exists id, In (attempt_row a2 id) (checkins (fst r))).
Proof.
  intros a1 a2 db0 sched V1 V2 Hne F1 F2. cbv zeta.
  rewrite (attempt_request_query V1), (attempt_request_query V2).
  destruct (@unhindered_interleave a1 a2 sched Hne db0
              (attempt_query a1) (attempt_query a2)) as [H1 H2].
  - apply unhindered_pending; [exact F1 | constructor].
  - apply unhindered_pending; [exact F2 | constructor].
  - split; intros o Ho.
    + exact (unhindered_outcome H1 Ho).
    + exact (unhindered_outcome H2 Ho).
Qed.

Lemma different_users_both_succeed_witness :
  valid_attempt alice_at_900 /\ valid_attempt bob_at_905 /\
  (User.id (at_user alice_at_900) <> User.id (at_user bob_at_905)
   \/ at_today alice_at_900 <> at_today bob_at_905) /\
  forall o,
    outcome (snd (snd (interleave [W1; W2; W2; W1] only_alice
                         (attempt_request alice_at_900)
                         (attempt_request bob_at_905)))) = Some o ->
    o = inr (CheckedIn 905%Z (round1 0)).
Proof.
  assert (Hne : User.id (at_user alice_at_900) <> User.id (at_user bob_at_905)
                \/ at_today alice_at_900 <> at_today bob_at_905)
    by (left; discriminate).
  split; [exact alice_at_900_valid |]. split; [exact bob_at_905_valid |].
  split; [exact Hne |].
  intros o Ho.
  exact (proj1 (proj2 (@different_users_both_succeed alice_at_900 bob_at_905
                         only_alice [W1; W2; W2; W1]
                         alice_at_900_valid bob_at_905_valid Hne
                         eq_refl eq_refl) o Ho)).
Defined.

(* ================================================================== *)
(** * Strings *)
(* ================================================================== *)

Lemma string_drop_append p r :
  string_drop (String.length p) (p ++ r)%string = r.
Proof. induction p as [| c p IH]; simpl; [reflexivity | exact IH]. Qed.

Lemma prefix_append p r : String.prefix p (p ++ r)%string = true.
Proof.
  induction p as [| c p IH]; simpl.
  - destruct r; reflexivity.
  - destruct (Ascii.ascii_dec c c) as [_ | N]; [exact IH | congruence].
Qed.

Lemma prefix_split p s :
  String.prefix p s = true ->
  s = (p ++ string_drop (String.length p) s)%string.
Proof.
  revert s. induction p as [| c p IH]; intros s H; simpl; [reflexivity |].
  destruct s as [| c' s]; simpl in H; [discriminate |].
  destruct (Ascii.ascii_dec c c') as [<- | _]; [| discriminate].
  f_equal. apply IH. exact H.
Qed.

Lemma replace_first_prefix old new s :
  String.prefix old s = true ->
  replace_first old new s = (new ++ string_drop (String.length old) s)%string.
Proof.
  intros H. destruct s; simpl in *; rewrite H; reflexivity.
Qed.

(** X19: The database URL: a URL that starts with [postgres://] has that scheme
    replaced by [postgresql://] and its rest kept, any other URL is taken
    as it is, the default being the SQLite file; the result never starts
    with [postgres://], so the rewriting is idempotent. *)
Theorem database_url_scheme :
  (forall rest,
      database_url (Some ("postgres://" ++ rest)%string)
      = ("postgresql://" ++ rest)%string) /\
  (forall url,
      String.prefix "postgres://" url = false ->
      database_url (Some url) = url) /\
  database_url None = "sqlite:///jochiesleague.db"%string /\
  (forall env, String.prefix "postgres://" (database_url env) = false) /\
  (forall env, database_url (Some (database_url env)) = database_url env).
Proof.
  assert (A : forall rest,
             database_url (Some ("postgres://" ++ rest)%string)
             = ("postgresql://" ++ rest)%string).
  { intros rest. unfold database_url.
    rewrite (prefix_append "postgres://" rest).
    rewrite replace_first_prefix by apply prefix_append.
    rewrite string_drop_append. reflexivity. }
  assert (B : forall url,
             String.prefix "postgres://" url = false ->
             database_url (Some url) = url).
  { intros url H. unfold database_url. rewrite H. reflexivity. }
  assert (C : forall env, String.prefix "postgres://" (database_url env) = false).
  { intros env.
    destruct (String.prefix "postgres://" (database_url env)) eqn:P;
      [| reflexivity].
    exfalso. unfold database_url in P.
    set (url := match env with
                | Some v => v
                | None => "sqlite:///jochiesleague.db"%string
                end) in *.
    destruct (String.prefix "postgres://" url) eqn:Q; [| congruence].
    rewrite replace_first_prefix in P by exact Q.
    simpl in P. discriminate. }
  split; [exact A |]. split; [exact B |]. split; [reflexivity |].
  split; [exact C |].
  intros env. apply B. apply C.
Qed.

Lemma database_url_scheme_witness :
  String.prefix "postgres://" "sqlite:///test.db" = false /\
  database_url (Some "sqlite:///test.db"%string) = "sqlite:///test.db"%string /\
  database_url (Some "postgres://u:p@host/db"%string)
  = "postgresql://u:p@host/db"%string.
Proof.
  split; [reflexivity |]. split.
  - apply (proj1 (proj2 database_url_scheme)). reflexivity.
  - exact (proj1 database_url_scheme "u:p@host/db"%string).
Defined.

(* ================================================================== *)
(** * Authentication *)
(* ================================================================== *)

Lemma current_user_run session db :
  run (current_user session) db =
  (db, inr match session with
           | Some user_id => user_get db user_id
           | None => None
           end).
Proof. destruct session; reflexivity. Qed.

Lemma get_user_from_token_run tokens authorization utcnow db :
  run (get_user_from_token tokens authorization utcnow) db =
  (db, inr (principal db None tokens authorization utcnow)).
Proof.
  unfold get_user_from_token, principal.
  destruct authorization as [header |]; [| reflexivity].
  destruct (String.prefix "Bearer " header); [| reflexivity].
  destruct (dict_get tokens (string_drop 7 header)) as [td |]; [| reflexivity].
  destruct (Z.ltb utcnow (token_expires td)); reflexivity.
Qed.

Lemma principal_session db session tokens authorization utcnow :
  principal db session tokens authorization utcnow =
  match match session with
        | Some user_id => user_get db user_id
        | None => None
        end with
  | Some user => Some user
  | None => principal db None tokens authorization utcnow
  end.
Proof. unfold principal. destruct session; reflexivity. Qed.

(** A protected route is its body run for the principal of the request. *)
Lemma api_login_required_run f session tokens authorization utcnow db :
  run (api_login_required f session tokens authorization utcnow) db =
  match principal db session tokens authorization utcnow with
  | None => (db, inr NotAuthenticated)
  | Some user =>
      match run (f user) db with
      | (db', inr r) => (db', inr (Served r))
      | (db', inl e) => (db', inl e)
      end
  end.
Proof.
  unfold api_login_required.
  rewrite run_bind, current_user_run, principal_session.
  destruct (match session with
            | Some user_id => user_get db user_id
            | None => None
            end) as [user |].
  - rewrite run_bind. cbn [run]. rewrite run_bind.
    destruct (run (f user) db) as [db' [e | r]]; reflexivity.
  - rewrite run_bind, get_user_from_token_run.
    destruct (principal db None tokens authorization utcnow) as [user |];
      [| reflexivity].
    rewrite run_bind. destruct (run (f user) db) as [db' [e | r]]; reflexivity.
Qed.

Lemma get_current_user_run session tokens authorization utcnow db :
  run (get_current_user session tokens authorization utcnow) db =
  (db,
   inr match principal db session tokens authorization utcnow with
       | Some user =>
           Authenticated (User.id user) (User.name user) (User.email user)
                         (User.picture user)
       | None => Anonymous
       end).
Proof.
  unfold get_current_user.
  rewrite run_bind, current_user_run, principal_session.
  destruct (match session with
            | Some user_id => user_get db user_id
            | None => None
            end) as [user |].
  - rewrite run_bind. reflexivity.
  - rewrite run_bind, get_user_from_token_run.
    destruct (principal db None tokens authorization utcnow); reflexivity.
Qed.

(** X12: A bearer token names a user exactly when the header is [Bearer ]
    followed by a token of the store that expires strictly after the time
    of the request and whose user exists; a token at or past its expiry, an
    unknown one, another scheme or no header give no user. *)
Theorem bearer_token_user :
  forall tokens authorization utcnow db user,
    run (get_user_from_token tokens authorization utcnow) db
    = (db, inr (Some user)) <->
    exists token td,
      authorization = Some ("Bearer " ++ token)%string /\
      dict_get tokens token = Some td /\
      (utcnow < token_expires td)%Z /\
      user_get db (token_user_id td) = Some user.
Proof.
  intros tokens authorization utcnow db user.
  rewrite get_user_from_token_run. split.
  - intros H.
    assert (H' : principal db None tokens authorization utcnow = Some user)
      by congruence.
    clear H. unfold principal in H'.
    destruct authorization as [header |]; [| discriminate].
    destruct (String.prefix "Bearer " header) eqn:P; [| discriminate].
    destruct (dict_get tokens (string_drop 7 header)) as [td |] eqn:G;
      [| discriminate].
    destruct (Z.ltb utcnow (token_expires td)) eqn:L; [| discriminate].
    exists (string_drop 7 header), td.
    split; [f_equal; exact (prefix_split _ _ P) |].
    split; [exact G |]. split; [apply Z.ltb_lt; exact L | exact H'].
  - intros [token [td [-> [G [L U]]]]]. unfold principal.
    rewrite (prefix_append "Bearer " token).
    change 7%nat with (String.length "Bearer ").
    rewrite string_drop_append, G.
    apply Z.ltb_lt in L. rewrite L, U. reflexivity.
Qed.

(** X13: Without a principal a protected route answers 401 and its body does
    not run, so nothing is written; with one, it never answers 401.  The
    user of the session comes before the bearer token, which is used when
    the session has no user or names one that is gone. *)
Theorem api_login_required_guard :
  forall f session tokens authorization utcnow db,
    (snd (run (api_login_required f session tokens authorization utcnow) db)
     = inr NotAuthenticated
     <-> principal db session tokens authorization utcnow = None) /\
    (principal db session tokens authorization utcnow = None ->
     fst (run (api_login_required f session tokens authorization utcnow) db)
     = db) /\
    (forall user_id user,
        session = Some user_id -> user_get db user_id = Some user ->
        run (api_login_required f session tokens authorization utcnow) db
        = run (api_login_required f session [] None utcnow) db) /\
    (match session with
     | Some user_id => user_get db user_id = None
     | None => True
     end ->
     run (api_login_required f session tokens authorization utcnow) db
     = run (api_login_required f None tokens authorization utcnow) db).
Proof.
  intros f session tokens authorization utcnow db.
  split; [| split; [| split]].
  - rewrite api_login_required_run.
    destruct (principal db session tokens authorization utcnow) as [user |].
    + split; [| discriminate].
      destruct (run (f user) db) as [db' [e | r]]; discriminate.
    + split; reflexivity.
  - intros H. rewrite api_login_required_run, H. reflexivity.
  - intros user_id user -> U. rewrite !api_login_required_run.
    rewrite (principal_session db (Some user_id) tokens).
    rewrite (principal_session db (Some user_id) []).
    rewrite U. reflexivity.
  - intros H. rewrite !api_login_required_run.
    rewrite (principal_session db session tokens).
    destruct session as [user_id |]; [rewrite H |]; reflexivity.
Qed.

Lemma bearer_token_user_witness :
  run (get_user_from_token sample_tokens (Some "Bearer tok-a"%string) 999%Z)
      alice_checked_in
  = (alice_checked_in, inr (Some alice)) /\
  (999 < 1000)%Z.
Proof.
  split; [| reflexivity].
  apply (proj2 (bearer_token_user sample_tokens (Some "Bearer tok-a"%string)
                  999%Z alice_checked_in alice)).
  exists "tok-a"%string,
         {| token_user_id := "alice"; token_expires := 1000%Z |}.
  repeat split.
Defined.

Example bearer_token_at_expiry :
  run (get_user_from_token sample_tokens (Some "Bearer tok-a"%string) 1000%Z)
      alice_checked_in
  = (alice_checked_in, inr None).
Proof. reflexivity. Qed.

Lemma api_login_required_guard_witness :
  principal only_alice None sample_tokens (Some "Bearer tok-b"%string) 900%Z
  = None /\
  run (checkin_route at_the_park 739000%Z 900%Z
         None sample_tokens (Some "Bearer tok-b"%string) 900%Z) only_alice
  = (only_alice, inr NotAuthenticated).
Proof.
  assert (P : principal only_alice None sample_tokens
                (Some "Bearer tok-b"%string) 900%Z = None) by reflexivity.
  split; [exact P |].
  pose proof (api_login_required_guard
                (fun user => checkin user at_the_park 739000%Z 900%Z)
                None sample_tokens (Some "Bearer tok-b"%string) 900%Z only_alice)
    as [G1 [G2 _]].
  unfold checkin_route.
  destruct (run (api_login_required
                   (fun user => checkin user at_the_park 739000%Z 900%Z)
                   None sample_tokens (Some "Bearer tok-b"%string) 900%Z)
                only_alice) as [db' o].
  cbn [fst snd] in *. rewrite (G2 P), (proj2 G1 P). reflexivity.
Defined.

(** X14: [GET /auth/user] and the protected routes agree on who is logged in:
    it answers "not authenticated" exactly when they answer 401, and the
    user it describes is the one their body is run for. *)
Theorem get_current_user_agrees :
  forall f session tokens authorization utcnow db,
    (snd (run (get_current_user session tokens authorization utcnow) db)
     = inr Anonymous
     <-> snd (run (api_login_required f session tokens authorization utcnow) db)
         = inr NotAuthenticated) /\
    (forall id name email picture,
        snd (run (get_current_user session tokens authorization utcnow) db)
        = inr (Authenticated id name email picture) ->
        exists user,
          User.id user = id /\ User.name user = name /\
          User.email user = email /\ User.picture user = picture /\
          run (api_login_required f session tokens authorization utcnow) db
          = match run (f user) db with
            | (db', inr r) => (db', inr (Served r))
            | (db', inl e) => (db', inl e)
            end).
Proof.
  intros f session tokens authorization utcnow db.
  rewrite get_current_user_run, api_login_required_run. cbn [snd].
  destruct (principal db session tokens authorization utcnow) as [user |].
  - split.
    + split; [discriminate |].
      destruct (run (f user) db) as [db' [e | r]]; discriminate.
    + intros id name email picture H. inversion H; subst.
      exists user. repeat split.
  - split; [split; reflexivity | discriminate].
Qed.

Lemma get_current_user_agrees_witness :
  snd (run (get_current_user None sample_tokens
              (Some "Bearer tok-a"%string) 999%Z) alice_checked_in)
  = inr (Authenticated "alice" "Alice" "alice@example.org" None) /\
  run (get_status_route 739000%Z None sample_tokens
         (Some "Bearer tok-a"%string) 999%Z) alice_checked_in
  = (alice_checked_in, inr (Served (Status true (Some 900%Z)))).
Proof.
  assert (H : snd (run (get_current_user None sample_tokens
                          (Some "Bearer tok-a"%string) 999%Z) alice_checked_in)
              = inr (Authenticated "alice" "Alice" "alice@example.org" None))
    by reflexivity.
  split; [exact H |].
  destruct (proj2 (get_current_user_agrees
                     (fun user => get_status user 739000%Z)
                     None sample_tokens (Some "Bearer tok-a"%string) 999%Z
                     alice_checked_in) _ _ _ _ H)
    as [user [Hid [Hname [Hemail [Hpic Hrun]]]]].
  unfold get_status_route. rewrite Hrun.
  unfold get_status. cbn [run]. rewrite Hid. reflexivity.
Defined.

(* ================================================================== *)
(** * The token store *)
(* ================================================================== *)

Section DictFacts.

Variable V : Type.
Implicit Types (d : dict V) (k : string) (v : V).

Lemma dict_get_set d k v k' :
  dict_get (dict_set d k v) k' =
  if String.eqb k k' then Some v else dict_get d k'.
Proof.
  unfold dict_get. induction d as [| [k0 v0] d IH]; simpl.
  - destruct (String.eqb k k'); reflexivity.
  - destruct (String.eqb k0 k) eqn:E0; simpl.
    + apply String.eqb_eq in E0. subst k0.
      destruct (String.eqb k k'); reflexivity.
    + destruct (String.eqb k0 k') eqn:E1; simpl.
      * apply String.eqb_eq in E1. subst k0.
        rewrite String.eqb_sym, E0. reflexivity.
      * exact IH.
Qed.

Lemma dict_set_keys d k v :
  forall k', In k' (map fst (dict_set d k v)) <-> k' = k \/ In k' (map fst d).
Proof.
  induction d as [| [k0 v0] d IH]; intros k'; simpl.
  - intuition congruence.
  - destruct (String.eqb k0 k) eqn:E0; simpl.
    + apply String.eqb_eq in E0. subst k0. intuition congruence.
    + rewrite IH. intuition congruence.
Qed.

Lemma dict_set_keys_once d k v :
  dict_keys_once d -> dict_keys_once (dict_set d k v).
Proof.
  unfold dict_keys_once. induction d as [| [k0 v0] d IH]; simpl; intros H.
  - constructor; [intros [] | constructor].
  - inversion H as [| ? ? Hnotin Hd]; subst.
    destruct (String.eqb k0 k) eqn:E0; simpl.
    + apply String.eqb_eq in E0. subst k0. constructor; assumption.
    + constructor; [| apply IH; exact Hd].
      rewrite dict_set_keys. intros [-> | Hin]; [| contradiction].
      rewrite String.eqb_refl in E0. discriminate.
Qed.

Lemma filter_keys_once (p : string * V -> bool) d :
  dict_keys_once d -> dict_keys_once (filter p d).
Proof.
  unfold dict_keys_once. induction d as [| item d IH]; simpl; intros H;
    [constructor |].
  inversion H as [| ? ? Hnotin Hd]; subst.
  destruct (p item); simpl; [| apply IH; exact Hd].
  constructor; [| apply IH; exact Hd].
  intros Hin. apply Hnotin. apply in_map_iff in Hin as [x [Hx Hin]].
  apply filter_In in Hin as [Hin _]. apply in_map_iff. exists x. auto.
Qed.

Lemma dict_get_none_keys d k :
  ~ In k (map fst d) -> dict_get d k = None.
Proof.
  unfold dict_get. induction d as [| [k0 v0] d IH]; simpl; intros H;
    [reflexivity |].
  destruct (String.eqb k0 k) eqn:E.
  - apply String.eqb_eq in E. subst. tauto.
  - apply IH. tauto.
Qed.

(** Looking up in a dict filtered on its values. *)
Lemma dict_get_filter (p : V -> bool) d k :
  dict_keys_once d ->
  dict_get (filter (fun item => p (snd item)) d) k =
  match dict_get d k with
  | Some v => if p v then Some v else None
  | None => None
  end.
Proof.
  unfold dict_keys_once. induction d as [| [k0 v0] d IH]; simpl; intros H;
    [reflexivity |].
  inversion H as [| ? ? Hnotin Hd]; subst.
  unfold dict_get in *. simpl.
  destruct (String.eqb k0 k) eqn:E.
  - apply String.eqb_eq in E. subst k0.
    destruct (p v0) eqn:Pv; simpl.
    + rewrite String.eqb_refl. simpl. rewrite Pv. reflexivity.
    + rewrite Pv.
      fold (dict_get (filter (fun item => p (snd item)) d) k).
      apply dict_get_none_keys.
      intros Hin. apply Hnotin. apply in_map_iff in Hin as [x [Hx Hin]].
      apply filter_In in Hin as [Hin _]. apply in_map_iff. exists x. auto.
  - destruct (p v0); simpl; [rewrite E |]; apply IH; exact Hd.
Qed.

(** Deleting keys one after the other removes the items with these keys. *)
Lemma fold_dict_del ks :
  forall d,
    fold_left (fun d t => dict_del d t) ks d =
    filter (fun item => negb (existsb (String.eqb (fst item)) ks)) d.
Proof.
  induction ks as [| k ks IH]; intros d; simpl.
  - induction d as [| item d IHd]; simpl; [reflexivity |]. f_equal. exact IHd.
  - rewrite IH. unfold dict_del.
    induction d as [| item d IHd]; simpl; [reflexivity |].
    destruct (String.eqb (fst item) k); simpl; [exact IHd |].
    destruct (existsb (String.eqb (fst item)) ks); simpl; [exact IHd |].
    f_equal. exact IHd.
Qed.

End DictFacts.

(** The clean-up keeps exactly the items that have not expired. *)
Lemma sweep_tokens_filter tokens now :
  dict_keys_once tokens ->
  sweep_tokens tokens now =
  filter (fun item => negb (Z.ltb (token_expires (snd item)) now)) tokens.
Proof.
  intros H. unfold sweep_tokens, expired_tokens. rewrite fold_dict_del.
  apply filter_ext_in. intros [k td] Hin. f_equal. cbn [fst snd].
  destruct (Z.ltb (token_expires td) now) eqn:L.
  - apply existsb_exists. exists k. split; [| apply String.eqb_refl].
    apply in_map_iff. exists (k, td). split; [reflexivity |].
    apply filter_In. split; [exact Hin | exact L].
  - destruct (existsb _ _) eqn:X; [| reflexivity].
    apply existsb_exists in X as [k' [Hk' Ek]].
    apply String.eqb_eq in Ek. subst k'.
    apply in_map_iff in Hk' as [[k2 td2] [Hk2 Hin2]]. cbn [fst] in Hk2. subst k2.
    apply filter_In in Hin2 as [Hin2 L2]. cbn [snd] in L2.
    assert (td2 = td).
    { unfold dict_keys_once in H. clear - H Hin Hin2.
      induction tokens as [| [k0 v0] tokens IH]; [contradiction |].
      simpl in H. inversion H as [| ? ? Hnotin Hd]; subst.
      destruct Hin as [Hin | Hin], Hin2 as [Hin2 | Hin2].
      - congruence.
      - inversion Hin; subst. exfalso. apply Hnotin.
        apply in_map_iff. exists (k, td2). auto.
      - inversion Hin2; subst. exfalso. apply Hnotin.
        apply in_map_iff. exists (k, td). auto.
      - apply IH; assumption. }
    subst td2. congruence.
Qed.

(* ================================================================== *)
(** * The OAuth callback *)
(* ================================================================== *)

Lemma append_inj_l p a b : (p ++ a)%string = (p ++ b)%string -> a = b.
Proof.
  induction p as [| c p IH]; simpl; intros H; [exact H |].
  inversion H. auto.
Qed.

(** A callback either fails and changes nothing, or upserts the user named
    by ['sub'], logs the session in, stores the token and sweeps. *)
Lemma auth_callback_cases frontend_url authorized auth_token clock srv session :
  (auth_callback frontend_url authorized auth_token clock srv session
   = (srv, session, (frontend_url ++ "?error=auth_failed")%string)) \/
  (auth_callback frontend_url authorized auth_token clock srv session
   = (srv, session, (frontend_url ++ "?error=auth_error")%string)) \/
  (exists user_info sub name db',
      authorized = AuthorizeToken (Some user_info) /\
      dict_get user_info "sub" = Some sub /\
      dict_get user_info "name" = Some name /\
      ((user_get (srv_db srv) sub = None /\
        exists email,
          dict_get user_info "email" = Some email /\
          add_user (srv_db srv)
            {| User.id := sub; User.email := email; User.name := name;
               User.picture := dict_get user_info "picture";
               User.created_at := at_insert clock |} = inr db') \/
       (user_get (srv_db srv) sub <> None /\
        db' = update_user (srv_db srv) sub name
                (dict_get user_info "picture"))) /\
      auth_callback frontend_url authorized auth_token clock srv session
      = ({| srv_db := db';
            auth_tokens :=
              sweep_tokens (dict_set (auth_tokens srv) auth_token
                                     (issued sub clock))
                           (at_sweep clock) |},
         Some sub,
         (frontend_url ++ "?auth_token=" ++ auth_token)%string)).
Proof.
  unfold auth_callback, auth_callback_try.
  destruct authorized as [| [user_info |]]; [right; left; reflexivity | |
                                              left; reflexivity].
  destruct user_info as [| item user_info]; [left; reflexivity |].
  set (ui := item :: user_info).
  destruct (dict_get ui "sub") as [sub |] eqn:Esub; [| right; left; reflexivity].
  destruct (user_get (srv_db srv) sub) as [user |] eqn:U.
  - destruct (dict_get ui "name") as [name |] eqn:Ename;
      [| right; left; reflexivity].
    right. right. exists ui, sub, name,
      (update_user (srv_db srv) sub name (dict_get ui "picture")).
    split; [reflexivity |]. split; [exact Esub |]. split; [exact Ename |].
    split; [right; split; [congruence | reflexivity] |].
    cbn [User.id]. unfold issued.
    assert (Eid : User.id user = sub).
    { unfold user_get in U. apply find_some in U as [_ E].
      apply String.eqb_eq in E. exact E. }
    rewrite Eid. reflexivity.
  - destruct (dict_get ui "email") as [email |] eqn:Eemail;
      [| right; left; reflexivity].
    destruct (dict_get ui "name") as [name |] eqn:Ename;
      [| right; left; reflexivity].
    destruct (add_user (srv_db srv) _) as [e | db'] eqn:A;
      [right; left; reflexivity |].
    right. right. exists ui, sub, name, db'.
    split; [reflexivity |]. split; [exact Esub |]. split; [exact Ename |].
    split; [left; split; [exact U | exists email; split;
                                    [exact Eemail | exact A]] |].
    reflexivity.
Qed.

Lemma not_auth_failed frontend_url auth_token :
  (frontend_url ++ "?error=auth_failed")%string
  <> (frontend_url ++ "?auth_token=" ++ auth_token)%string.
Proof. intros H. apply append_inj_l in H. simpl in H. discriminate. Qed.

Lemma not_auth_error frontend_url auth_token :
  (frontend_url ++ "?error=auth_error")%string
  <> (frontend_url ++ "?auth_token=" ++ auth_token)%string.
Proof. intros H. apply append_inj_l in H. simpl in H. discriminate. Qed.



Lemma user_get_add db user db' :
  add_user db user = inr db' ->
  user_get db' (User.id user) = Some user /\
  checkins db' = checkins db /\ users db' = users db ++ [user] /\
  (forall u, In u (users db) ->
             User.id u <> User.id user /\ User.email u <> User.email user).
Proof.
  unfold add_user. destruct (existsb _ (users db)) eqn:X; [discriminate |].
  intros H. inversion H; subst; clear H. cbn [users checkins].
  assert (N : forall u, In u (users db) ->
                        User.id u <> User.id user /\
                        User.email u <> User.email user).
  { intros u Hu.
    assert (Hf : String.eqb (User.id u) (User.id user)
                 || String.eqb (User.email u) (User.email user) = false).
    { destruct (_ || _) eqn:E; [| reflexivity].
      rewrite <- X. symmetry. apply existsb_exists. exists u. auto. }
    apply orb_false_iff in Hf as [H1 H2].
    apply String.eqb_neq in H1, H2. auto. }
  split; [| split; [reflexivity | split; [reflexivity | exact N]]].
  unfold user_get. cbn [users].
  rewrite find_app_none.
  - simpl. rewrite String.eqb_refl. reflexivity.
  - destruct (find _ (users db)) as [u |] eqn:F; [| reflexivity].
    apply find_some in F as [Hin E]. apply String.eqb_eq in E.
    destruct (N u Hin) as [N1 _]. contradiction.
Qed.

Lemma user_get_update db id name picture user :
  user_get db id = Some user ->
  user_get (update_user db id name picture) id
  = Some {| User.id := User.id user; User.email := User.email user;
            User.name := name; User.picture := picture;
            User.created_at := User.created_at user |}.
Proof.
  unfold user_get, update_user. cbn [users].
  induction (users db) as [| u us IH]; simpl; [discriminate |].
  destruct (String.eqb (User.id u) id) eqn:E; simpl.
  - rewrite E. intros H. inversion H; subst. reflexivity.
  - rewrite E. exact IH.
Qed.

(** X15: The login round trip.  When the callback redirects with a token, the
    session is logged in as the user named by ['sub'], whose row now has
    the name and picture of the user info; and as long as the token has
    not expired, thirty days after it was issued, a request that carries
    it as a bearer token is made by that user, with or without the session
    and also after a logout. *)
Theorem login_round_trip :
  forall frontend_url authorized auth_token clock srv session srv' session',
    dict_keys_once (auth_tokens srv) ->
    (at_sweep clock <= at_issue clock + THIRTY_DAYS)%Z ->
    auth_callback frontend_url authorized auth_token clock srv session
    = (srv', session', (frontend_url ++ "?auth_token=" ++ auth_token)%string) ->
    exists user_info user,
      authorized = AuthorizeToken (Some user_info) /\
      dict_get user_info "sub" = Some (User.id user) /\
      dict_get user_info "name" = Some (User.name user) /\
      dict_get user_info "picture" = User.picture user /\
      session' = Some (User.id user) /\
      user_get (srv_db srv') (User.id user) = Some user /\
      forall later,
        (later < at_issue clock + THIRTY_DAYS)%Z ->
        principal (srv_db srv') session' [] None later = Some user /\
        principal (srv_db srv') None (auth_tokens srv')
                  (Some ("Bearer " ++ auth_token)%string) later = Some user /\
        principal (srv_db srv') (fst (logout frontend_url session'))
                  (auth_tokens srv')
                  (Some ("Bearer " ++ auth_token)%string) later = Some user.
Proof.
  intros frontend_url authorized auth_token clock srv session srv' session'
         Hkeys Hclock H.
  destruct (auth_callback_cases frontend_url authorized auth_token clock
              srv session)
    as [E | [E | [ui [sub [name [db' [Ea [Esub [Ename [Hup E]]]]]]]]]];
    rewrite E in H.
  { inversion H as [[H1 H2 H3]]. exfalso.
    exact (not_auth_failed _ _ H3). }
  { inversion H as [[H1 H2 H3]]. exfalso.
    exact (not_auth_error _ _ H3). }
  inversion H; subst srv' session'. clear H E. cbn [srv_db auth_tokens].
  assert (Huser : exists user,
             User.id user = sub /\ User.name user = name /\
             User.picture user = dict_get ui "picture" /\
             user_get db' sub = Some user).
  { destruct Hup as [[U [email [Eemail A]]] | [U ->]].
    - eexists. split; [| split; [| split]];
        [| | | exact (proj1 (user_get_add _ _ A))]; reflexivity.
    - destruct (user_get (srv_db srv) sub) as [user |] eqn:G; [| congruence].
      eexists. split; [| split; [| split]];
        [| | | exact (user_get_update _ _ name (dict_get ui "picture") G)];
        try reflexivity.
      cbn [User.id]. unfold user_get in G. apply find_some in G as [_ G].
      apply String.eqb_eq in G. exact G. }
  destruct Huser as [user [Hid [Hname [Hpic Hget]]]].
  exists ui, user. rewrite Hid, Hname, <- Hpic.
  split; [exact Ea |]. split; [exact Esub |]. split; [exact Ename |].
  split; [reflexivity |]. split; [reflexivity |]. split; [exact Hget |].
  intros later Hlater.
  assert (Htok : dict_get
                   (sweep_tokens (dict_set (auth_tokens srv) auth_token
                                           (issued sub clock))
                                 (at_sweep clock)) auth_token
                 = Some (issued sub clock)).
  { rewrite sweep_tokens_filter by (apply dict_set_keys_once; exact Hkeys).
    rewrite (dict_get_filter
               (fun td => negb (Z.ltb (token_expires td) (at_sweep clock))))
      by (apply dict_set_keys_once; exact Hkeys).
    rewrite dict_get_set, String.eqb_refl. cbn [issued token_expires].
    destruct (Z.ltb_spec (at_issue clock + THIRTY_DAYS) (at_sweep clock));
      [lia | reflexivity]. }
  assert (Hbearer : principal db' None
                      (sweep_tokens (dict_set (auth_tokens srv) auth_token
                                              (issued sub clock))
                                    (at_sweep clock))
                      (Some ("Bearer " ++ auth_token)%string) later
                    = Some user).
  { unfold principal. rewrite (prefix_append "Bearer " auth_token).
    change 7%nat with (String.length "Bearer ").
    rewrite string_drop_append, Htok. cbn [issued token_expires token_user_id].
    destruct (Z.ltb_spec later (at_issue clock + THIRTY_DAYS)); [| lia].
    exact Hget. }
  split; [| split].
  - unfold principal. rewrite Hget. reflexivity.
  - exact Hbearer.
  - cbn [logout fst]. exact Hbearer.
Qed.

Lemma sample_tokens_keys_once : dict_keys_once sample_tokens.
Proof.
  unfold dict_keys_once. simpl. constructor.
  - intros [H | []]. discriminate.
  - constructor; [intros [] | constructor].
Qed.

Lemma bob_logs_in :
  auth_callback "https://front" (AuthorizeToken (Some bob_info)) "tok-new"
                sample_clock sample_server None
  = ({| srv_db :=
          {| users :=
               [alice;
                {| User.id := "bob"; User.email := "bob@example.org";
                   User.name := "Bob"; User.picture := Some "bob.png"%string;
                   User.created_at := 600%Z |}];
             checkins := [] |};
        auth_tokens :=
          [ ("tok-a"%string,
             {| token_user_id := "alice"; token_expires := 1000%Z |});
            ("tok-new"%string,
             {| token_user_id := "bob";
                token_expires := (601 + THIRTY_DAYS)%Z |}) ] |},
     Some "bob"%string,
     "https://front?auth_token=tok-new"%string).
Proof. reflexivity. Qed.

Lemma login_round_trip_witness :
  dict_keys_once (auth_tokens sample_server) /\
  (at_sweep sample_clock <= at_issue sample_clock + THIRTY_DAYS)%Z /\
  exists user,
    User.id user = "bob"%string /\
    principal
      (srv_db (fst (fst (auth_callback "https://front"
                           (AuthorizeToken (Some bob_info)) "tok-new"
                           sample_clock sample_server None))))
      None
      (auth_tokens (fst (fst (auth_callback "https://front"
                                (AuthorizeToken (Some bob_info)) "tok-new"
                                sample_clock sample_server None))))
      (Some "Bearer tok-new"%string) 700%Z
    = Some user.
Proof.
  assert (Hc : (at_sweep sample_clock <= at_issue sample_clock + THIRTY_DAYS)%Z)
    by (vm_compute; discriminate).
  split; [exact sample_tokens_keys_once |]. split; [exact Hc |].
  destruct (@login_round_trip "https://front"%string
              (AuthorizeToken (Some bob_info)) "tok-new"%string sample_clock
              sample_server None _ _ sample_tokens_keys_once Hc bob_logs_in)
    as [ui [user [Ea [Esub [_ [_ [_ [_ Hlater]]]]]]]].
  exists user. split.
  - inversion Ea; subst ui. simpl in Esub. inversion Esub. reflexivity.
  - rewrite bob_logs_in. cbn [fst srv_db auth_tokens].
    apply (Hlater 700%Z). vm_compute. reflexivity.
Defined.

(** X17: The sweep of a callback that goes through: the token store keeps its
    keys unique, holds no token that expired before the sweep, and every
    other token that has not expired is still there with its data, so a
    login does not log anybody else out. *)
Theorem login_sweeps_expired_only :
  forall frontend_url authorized auth_token clock srv session srv' session',
    dict_keys_once (auth_tokens srv) ->
    auth_callback frontend_url authorized auth_token clock srv session
    = (srv', session', (frontend_url ++ "?auth_token=" ++ auth_token)%string) ->
    dict_keys_once (auth_tokens srv') /\
    (forall token td,
        dict_get (auth_tokens srv') token = Some td ->
        (at_sweep clock <= token_expires td)%Z) /\
    (forall token,
        token <> auth_token ->
        dict_get (auth_tokens srv') token =
        match dict_get (auth_tokens srv) token with
        | Some td =>
            if Z.ltb (token_expires td) (at_sweep clock) then None else Some td
        | None => None
        end).
Proof.
  intros frontend_url authorized auth_token clock srv session srv' session'
         Hkeys H.
  destruct (auth_callback_cases frontend_url authorized auth_token clock
              srv session)
    as [E | [E | [ui [sub [name [db' [_ [_ [_ [_ E]]]]]]]]]];
    rewrite E in H.
  { inversion H as [[H1 H2 H3]]. exfalso. exact (not_auth_failed _ _ H3). }
  { inversion H as [[H1 H2 H3]]. exfalso. exact (not_auth_error _ _ H3). }
  inversion H; subst srv' session'. clear H E. cbn [auth_tokens].
  pose proof (dict_set_keys_once auth_token (issued sub clock) Hkeys) as Hk.
  rewrite (sweep_tokens_filter _ Hk).
  split; [apply filter_keys_once; exact Hk |].
  split.
  - intros token td G.
    rewrite (dict_get_filter
               (fun td => negb (Z.ltb (token_expires td) (at_sweep clock)))
               token Hk) in G.
    destruct (dict_get (dict_set (auth_tokens srv) auth_token
                                 (issued sub clock)) token) as [td' |];
      [| discriminate].
    destruct (Z.ltb_spec (token_expires td') (at_sweep clock));
      simpl in G; [discriminate |].
    inversion G; subst. assumption.
  - intros token Hne.
    rewrite (dict_get_filter
               (fun td => negb (Z.ltb (token_expires td) (at_sweep clock)))
               token Hk).
    rewrite dict_get_set.
    destruct (String.eqb_spec auth_token token) as [-> | _]; [congruence |].
    destruct (dict_get (auth_tokens srv) token) as [td |]; [| reflexivity].
    destruct (Z.ltb (token_expires td) (at_sweep clock)); reflexivity.
Qed.

Lemma login_sweeps_expired_only_witness :
  dict_keys_once (auth_tokens sample_server) /\
  dict_get
    (auth_tokens (fst (fst (auth_callback "https://front"
                              (AuthorizeToken (Some bob_info)) "tok-new"
                              sample_clock sample_server None))))
    "tok-a"
  = Some {| token_user_id := "alice"; token_expires := 1000%Z |} /\
  dict_get
    (auth_tokens (fst (fst (auth_callback "https://front"
                              (AuthorizeToken (Some bob_info)) "tok-new"
                              sample_clock sample_server None))))
    "tok-b"
  = None.
Proof.
  split; [exact sample_tokens_keys_once |].
  destruct (@login_sweeps_expired_only "https://front"%string
              (AuthorizeToken (Some bob_info)) "tok-new"%string sample_clock
              sample_server None _ _ sample_tokens_keys_once bob_logs_in)
    as [_ [_ Hother]].
  rewrite bob_logs_in in *. cbn [fst] in *.
  split.
  - rewrite (Hother "tok-a"%string) by discriminate. reflexivity.
  - rewrite (Hother "tok-b"%string) by discriminate. reflexivity.
Defined.

Lemma update_user_keys db id name picture :
  map User.id (users (update_user db id name picture)) = map User.id (users db) /\
  map User.email (users (update_user db id name picture))
  = map User.email (users db).
Proof.
  unfold update_user. cbn [users]. rewrite !map_map.
  split; apply map_ext; intros u;
    destruct (String.eqb (User.id u) id); reflexivity.
Qed.

Lemma NoDup_app_one (A : Type) (l : list A) x :
  NoDup l -> ~ In x l -> NoDup (l ++ [x]).
Proof.
  intros Hl Hx. induction Hl as [| y l Hy Hl IH]; simpl.
  - constructor; [intros [] | constructor].
  - constructor.
    + intros Hin. apply in_app_or in Hin as [Hin | [<- | []]].
      * contradiction.
      * apply Hx. left. reflexivity.
    + apply IH. intros Hin. apply Hx. right. exact Hin.
Qed.

(** X18: A callback never touches the check-ins and never removes or re-keys
    an account: ids and e-mail addresses stay unique, every account keeps
    its id, address and creation time, and only the account that logs in
    can have its name and picture changed. *)
Theorem login_keeps_accounts :
  forall frontend_url authorized auth_token clock srv session srv' session' url,
    auth_callback frontend_url authorized auth_token clock srv session
    = (srv', session', url) ->
    checkins (srv_db srv') = checkins (srv_db srv) /\
    (NoDup (map User.id (users (srv_db srv))) ->
     NoDup (map User.id (users (srv_db srv')))) /\
    (NoDup (map User.email (users (srv_db srv))) ->
     NoDup (map User.email (users (srv_db srv')))) /\
    (List.length (users (srv_db srv)) <= List.length (users (srv_db srv'))
     <= S (List.length (users (srv_db srv))))%nat /\
    (forall u,
        In u (users (srv_db srv)) ->
        exists u',
          In u' (users (srv_db srv')) /\
          User.id u' = User.id u /\ User.email u' = User.email u /\
          User.created_at u' = User.created_at u /\
          (u' = u \/ session' = Some (User.id u))).
Proof.
  intros frontend_url authorized auth_token clock srv session srv' session' url H.
  assert (Same : srv' = srv ->
                 checkins (srv_db srv') = checkins (srv_db srv) /\
                 (NoDup (map User.id (users (srv_db srv))) ->
                  NoDup (map User.id (users (srv_db srv')))) /\
                 (NoDup (map User.email (users (srv_db srv))) ->
                  NoDup (map User.email (users (srv_db srv')))) /\
                 (List.length (users (srv_db srv))
                  <= List.length (users (srv_db srv'))
                  <= S (List.length (users (srv_db srv))))%nat /\
                 (forall u,
                     In u (users (srv_db srv)) ->
                     exists u',
                       In u' (users (srv_db srv')) /\
                       User.id u' = User.id u /\ User.email u' = User.email u /\
                       User.created_at u' = User.created_at u /\
                       (u' = u \/ session' = Some (User.id u)))).
  { intros ->. repeat split; auto; try lia.
    intros u Hu. exists u. repeat split; auto. }
  destruct (auth_callback_cases frontend_url authorized auth_token clock
              srv session)
    as [E | [E | [ui [sub [name [db' [_ [_ [_ [Hup E]]]]]]]]]];
    rewrite E in H; inversion H; subst; clear H; auto.
  cbn [srv_db]. destruct Hup as [[U [email [_ A]]] | [U ->]].
  - destruct (user_get_add _ _ A) as [_ [Hc [Hu N]]]. cbn [User.id User.email] in N.
    rewrite Hc, Hu, !map_app, length_app. cbn [map List.length User.id User.email].
    split; [reflexivity |].
    split; [intros Hnd; apply NoDup_app_one; [exact Hnd |];
            intros Hin; apply in_map_iff in Hin as [u [Hid Hin]];
            destruct (N u Hin); contradiction |].
    split; [intros Hnd; apply NoDup_app_one; [exact Hnd |];
            intros Hin; apply in_map_iff in Hin as [u [Hid Hin]];
            destruct (N u Hin); contradiction |].
    split; [lia |].
    intros u Hin. exists u. split; [apply in_or_app; left; exact Hin |].
    repeat split; auto.
  - destruct (update_user_keys (srv_db srv) sub name (dict_get ui "picture"))
      as [Hids Hemails].
    rewrite Hids, Hemails.
    split; [reflexivity |]. split; [auto |]. split; [auto |].
    split; [unfold update_user; cbn [users]; rewrite length_map; lia |].
    intros u Hin. unfold update_user. cbn [users].
    destruct (String.eqb (User.id u) sub) eqn:Eu.
    + eexists. split.
      * apply in_map_iff. exists u. split; [| exact Hin]. rewrite Eu. reflexivity.
      * cbn [User.id User.email User.created_at]. repeat split.
        right. apply String.eqb_eq in Eu. congruence.
    + exists u. split.
      * apply in_map_iff. exists u. split; [| exact Hin]. rewrite Eu. reflexivity.
      * repeat split. left. reflexivity.
Qed.

Lemma login_keeps_accounts_witness :
  auth_callback "https://front" (AuthorizeToken (Some bob_info)) "tok-new"
                sample_clock sample_server None
  = (fst (fst (auth_callback "https://front" (AuthorizeToken (Some bob_info))
                 "tok-new" sample_clock sample_server None)),
     Some "bob"%string, "https://front?auth_token=tok-new"%string) /\
  (List.length (users (srv_db sample_server))
   <= List.length
        (users (srv_db (fst (fst (auth_callback "https://front"
                                    (AuthorizeToken (Some bob_info)) "tok-new"
                                    sample_clock sample_server None)))))
   <= S (List.length (users (srv_db sample_server))))%nat.
Proof.
  split; [reflexivity |].
  exact (proj1 (proj2 (proj2 (proj2
           (@login_keeps_accounts "https://front"%string
              (AuthorizeToken (Some bob_info)) "tok-new"%string sample_clock
              sample_server None _ _ _ eq_refl))))).
Defined.

(* ================================================================== *)
(** * Morph frames *)
(* ================================================================== *)

(** X20: The interpolated node set has a node for each pair that [zip] makes;
    every node keeps the point [(u, v)] of the first set; at [t = 0] the
    nodes are those of the first set, and at [t = 1] they are at the
    positions of the second set. *)
Theorem interpolate_nodes_ends :
  forall nodes1 nodes2 t,
    List.length (interpolate_nodes nodes1 nodes2 t)
    = Nat.min (List.length nodes1) (List.length nodes2) /\
    map Node.u (interpolate_nodes nodes1 nodes2 t)
    = firstn (List.length nodes2) (map Node.u nodes1) /\
    map Node.v (interpolate_nodes nodes1 nodes2 t)
    = firstn (List.length nodes2) (map Node.v nodes1) /\
    interpolate_nodes nodes1 nodes2 0 = firstn (List.length nodes2) nodes1 /\
    map Node.x (interpolate_nodes nodes1 nodes2 1)
    = firstn (List.length nodes1) (map Node.x nodes2) /\
    map Node.y (interpolate_nodes nodes1 nodes2 1)
    = firstn (List.length nodes1) (map Node.y nodes2).
Proof.
  induction nodes1 as [| n1 rest1 IH]; intros nodes2 t.
  - simpl. rewrite !firstn_nil. repeat split; reflexivity.
  - destruct nodes2 as [| n2 rest2]; [simpl; repeat split; reflexivity |].
    destruct (IH rest2 t) as [Hlen [Hu [Hv [H0 [Hx Hy]]]]].
    cbn [interpolate_nodes List.length map firstn Nat.min Node.u Node.v
         Node.x Node.y].
    rewrite Hlen, Hu, Hv, H0, Hx, Hy.
    split; [reflexivity |]. split; [reflexivity |]. split; [reflexivity |].
    split.
    + f_equal. destruct n1 as [x1 y1 u1 v1]. cbn [Node.x Node.y Node.u Node.v].
      f_equal; ring.
    + split; f_equal; ring.
Qed.
